(** * gakisitor: event bus, kernel lifecycle and notification routing

    A shallow embedding of [event/bus.go], [kernel/core.go] and
    [services/network/notification.go], with the properties of the
    specification stated over it.

    Goroutines, channels and callbacks are not executed: every function of
    the model threads an explicit world that holds the data the Go code
    mutates and a chronological trace of the effects it performs (tasks
    started, callbacks invoked, hooks called, log lines written). *)

From Stdlib Require Import ZArith String List Lia.
From stdpp Require Import base option list gmap sets strings.

Local Open Scope Z_scope.
Local Open Scope nat_scope.

(** ** Go slices *)

Module Slice.
Section Slice.
Context {A : Type}.

(** [copy(arr[i:], xs)]: the cells of a backing array from index [i] on are
    overwritten by [xs]; the other cells keep their contents. *)
Definition write_at (i : nat) (xs arr : list A) : list A :=
  take i arr ++ xs ++ drop (i + length xs) arr.

(** [append(s[:i], s[i+1:]...)] on a slice [s] of length [n > i].  The
    prefix [s[:i]] keeps the capacity of [s], and the [n - 1 - i] appended
    elements fit in it, so Go does not allocate: it moves [s[i+1:]] one
    cell to the left inside the backing array of [s].  The result is a new
    slice header of length [n - 1] over the same array.  Every other header
    over that array (here: the one stored in a map) keeps its length [n]
    and now reads the shifted cells followed by the old last cell.

    The pair is (elements of the returned header, elements read through an
    untouched header of length [n]). *)
Definition delete_at (i : nat) (s : list A) : list A * list A :=
  (take i s ++ drop (S i) s, write_at i (drop (S i) s) s).
End Slice.
End Slice.

(** ** The event bus ([event/bus.go]) *)

Module Event.

(** The package's error values; a Go [error] is [option error], [None]
    being [nil]. *)
Inductive error :=
| ErrPublishTimeout
| ErrChannelNotFound
| ErrChannelClosed
| ErrChannelSubscriberNotFound
| ErrChannelSubscriberAlreadyExists.

(** A channel made by [make(chan T)] and a context made by
    [context.WithCancel] are known by their allocation number. *)
Definition chan := nat.
Definition context := nat.

(** [time.Duration] counts nanoseconds; [time.Millisecond] is [10^6]. *)
Definition Millisecond : Z := 1000000.
Definition publishTimeout : Z := 25 * Millisecond.
Definition replyTimeout : Z := 25 * Millisecond.

(** [EventConsumer] is a func value.  The bus only looks at the name that
    [runtime.FuncForPC] gives for its code pointer; [fn_env] stands for
    what a closure captured, which the name does not see. *)
Record EventConsumer := { fn_name : string; fn_env : nat }.

Record subscriber := { id : string; ch : chan; cancel : context }.

Record Bus := {
  subscribers : gmap string (list subscriber);
  ids : gset string
}.

(** The table holds no empty list: a channel without registration has no
    entry. *)
Definition no_empty_list (b : Bus) : Prop :=
  forall (channel : string) (l : list subscriber),
    subscribers b !! channel = Some l -> l <> [].

Section WithPayload.
(** [interface{}] payloads and the [ReplyHandler] interface values. *)
Variables Payload ReplyHandler : Type.

Record Event := { payload : Payload; reply : chan; errorc : chan }.

Definition Message (event : Event) : Payload := payload event.
Definition Reply (event : Event) : chan := reply event.

(** What the bus does to the outside. *)
Inductive effect :=
| GoDeliver (c : chan) (e : Event)
    (** [go func(ch, e) { select { case ch <- e: ; case <-time.After(replyTimeout): e.error <- ErrPublishTimeout } }] *)
| Consume (h : ReplyHandler) (r e : option chan) (err : option error) (timeout : Z)
    (** [handler.consume(r, e, err, timeout)] *)
| GoWorker (c : chan) (x : context) (handler : EventConsumer)
    (** the worker task started by [Subscribe] *)
| Cancel (x : context)
    (** [sbcr.cancel()] *).

Record World := { bus : Bus; fresh : nat; trace : list effect }.

(** State passing over [World]. *)
Definition M (T : Type) : Type := World -> T * World.
Definition ret {T} (x : T) : M T := fun w => (x, w).
Definition bind {T U} (m : M T) (k : T -> M U) : M U :=
  fun w => let '(x, w') := m w in k x w'.

Notation "'do' x <- m ; k" := (bind m (fun x => k))
  (at level 10, x name, m at level 100, k at level 200).
Notation "m ;; k" := (bind m (fun _ => k))
  (at level 100, k at level 200, right associativity).

Definition get_bus : M Bus := fun w => (bus w, w).
Definition put_bus (b : Bus) : M unit :=
  fun w => (tt, {| bus := b; fresh := fresh w; trace := trace w |}).
Definition make : M nat :=
  fun w => (fresh w, {| bus := bus w; fresh := S (fresh w); trace := trace w |}).
Definition perform (e : effect) : M unit :=
  fun w => (tt, {| bus := bus w; fresh := fresh w; trace := trace w ++ [e] |}).

Fixpoint for_range {T} (l : list T) (body : T -> M unit) : M unit :=
  match l with
  | [] => ret tt
  | x :: l' => body x ;; for_range l' body
  end.

(** The body of the loop of [Publish], for one subscriber. *)
Definition publish_to (data : Payload) (handler : option ReplyHandler)
    (evChannel : subscriber) : M unit :=
  do r <- make;
  do e <- make;
  let event := {| payload := data; reply := r; errorc := e |} in
  perform (GoDeliver (ch evChannel) event) ;;
  match handler with
  | Some h => perform (Consume h (Some (reply event)) (Some (errorc event)) None replyTimeout)
  | None => ret tt
  end.

Definition Publish (channel : string) (data : Payload)
    (handler : option ReplyHandler) : M unit :=
  do b <- get_bus;
  match subscribers b !! channel with
  | None =>
      match handler with
      | Some h => perform (Consume h None None (Some ErrChannelNotFound) 0%Z)
      | None => ret tt
      end
  | Some _ =>
      do b <- get_bus;
      for_range (default [] (subscribers b !! channel)) (publish_to data handler)
  end.

(** [fmt.Sprintf("%s:%s", channel, runtime.FuncForPC(...).Name())] *)
Definition subscriber_id (channel : string) (handler : EventConsumer) : string :=
  channel +:+ ":" +:+ fn_name handler.

Definition Subscribe (channel : string) (handler : EventConsumer) : M (option error) :=
  do c <- make;
  do x <- make;
  perform (GoWorker c x handler) ;;
  let i := subscriber_id channel handler in
  do b <- get_bus;
  if decide (i ∈ ids b) then ret (Some ErrChannelSubscriberAlreadyExists)
  else
    put_bus {| subscribers :=
                 <[channel := default [] (subscribers b !! channel)
                              ++ [ {| id := i; ch := c; cancel := x |} ]]>
                   (subscribers b);
               ids := {[ i ]} ∪ ids b |} ;;
    ret None.

(** [for i, sbcr := range sub { if sbcr.id == id { ... return } }]: the
    first position holding the id. *)
Fixpoint range_find (i : nat) (wanted : string) (sub : list subscriber)
    : option (nat * subscriber) :=
  match sub with
  | [] => None
  | sbcr :: rest =>
      if String.eqb (id sbcr) wanted then Some (i, sbcr)
      else range_find (S i) wanted rest
  end.

(** [sub] is a copy of the slice header stored in the map; the result of
    [append] is assigned to that local copy only.  The map keeps its own
    header, over the array that [append] has shifted in place
    ([Slice.delete_at]).  [len(sub) == 0] tests the local copy. *)
Definition Unsubscribe (channel : string) (handler : EventConsumer) : M (option error) :=
  do b <- get_bus;
  match subscribers b !! channel with
  | None => ret (Some ErrChannelNotFound)
  | Some sub =>
      let i := subscriber_id channel handler in
      match range_find 0 i sub with
      | Some (n, sbcr) =>
          perform (Cancel (cancel sbcr)) ;;
          let '(sub', stored) := Slice.delete_at n sub in
          let table := <[channel := stored]> (subscribers b) in
          let ids' := ids b ∖ {[ i ]} in
          put_bus {| subscribers :=
                       if Nat.eqb (length sub') 0 then delete channel table else table;
                     ids := ids' |} ;;
          ret None
      | None => ret (Some ErrChannelSubscriberNotFound)
      end
  end.

(** The [k]-th [Event] of a [Publish] call whose first allocation is
    number [n]: each turn of the loop makes the reply conduit, then the
    error conduit. *)
Definition event_at (data : Payload) (n k : nat) : Event :=
  {| payload := data; reply := n + 2 * k; errorc := S (n + 2 * k) |}.

(** What one turn of the loop of [Publish] adds to the trace, for the
    [k]-th subscriber of a call whose first allocation is number [n]. *)
Definition turn (data : Payload) (handler : option ReplyHandler) (n k : nat)
    (s : subscriber) : list effect :=
  GoDeliver (ch s) (event_at data n k)
  :: match handler with
     | Some h => [Consume h (Some (reply (event_at data n k)))
                    (Some (errorc (event_at data n k))) None replyTimeout]
     | None => []
     end.

(** The calls of [handler.consume] and the delivery attempts in a trace. *)
Definition consume_calls (t : list effect)
    : list (ReplyHandler * option chan * option chan * option error * Z) :=
  flat_map (fun e => match e with
                     | Consume h r c err d => [(h, r, c, err, d)]
                     | _ => []
                     end) t.

Definition deliveries (t : list effect) : list (chan * Event) :=
  flat_map (fun e => match e with GoDeliver c ev => [(c, ev)] | _ => [] end) t.

(** [Bus] with both maps made and empty, nothing allocated, nothing done. *)
Definition empty_world : World :=
  {| bus := {| subscribers := ∅; ids := ∅ |}; fresh := 0; trace := [] |}.

End WithPayload.

Arguments event_at {Payload} _ _ _.
Arguments turn {Payload ReplyHandler} _ _ _ _ _.
Arguments consume_calls {Payload ReplyHandler} _.
Arguments deliveries {Payload ReplyHandler} _.
Arguments empty_world {Payload ReplyHandler}.
Arguments payload {Payload} _.
Arguments reply {Payload} _.
Arguments errorc {Payload} _.
Arguments GoDeliver {Payload ReplyHandler} _ _.
Arguments Consume {Payload ReplyHandler} _ _ _ _ _.
Arguments GoWorker {Payload ReplyHandler} _ _ _.
Arguments Cancel {Payload ReplyHandler} _.
Arguments bus {Payload ReplyHandler} _.
Arguments fresh {Payload ReplyHandler} _.
Arguments trace {Payload ReplyHandler} _.
Arguments Publish {Payload ReplyHandler} _ _ _ _.
Arguments Subscribe {Payload ReplyHandler} _ _ _.
Arguments Unsubscribe {Payload ReplyHandler} _ _ _.
Arguments publish_to {Payload ReplyHandler} _ _ _ _.
Arguments for_range {Payload ReplyHandler T} _ _ _.

End Event.

(** ** The kernel ([kernel/core.go]) *)

Module Kernel.

(** A Go [error] of the kernel is known by its message; [None] is [nil]. *)
Definition error := string.

(** [types.StateType] and the table [constant.States]. *)
Definition StateType := Z.

Record StatesTable := {
  Started : StateType;
  Idle : StateType;
  Working : StateType;
  Stopped : StateType;
  Panic : StateType
}.

Definition States : StatesTable :=
  {| Started := 0x1%Z; Idle := 0x2%Z; Working := 0x4%Z; Stopped := 0x8%Z;
     Panic := 0x10%Z |}.

Inductive hook := HStart | HConfigure | HProcess | HStop.

(** The third argument of [checkIf]. *)
Inductive check := IsStarted | IsConfigured | IsProcessed | IsStopped.

Definition InfoStartServices : string := "start services".
Definition InfoServicesStarted : string :=
  "services successfully started (%d services)".

Section WithCollaborators.
(** [Env] is everything the kernel reaches only through its collaborators:
    the private state of the services, the contents of the notification
    queue, the bus.  The hooks of a service read and change it. *)
Variables Env Properties Notification : Type.

(** [props.IsLoaded()] *)
Variable IsLoaded : Properties -> bool.
(** [service.NewNotificationQueue()]: the kernel gets an empty queue. *)
Variable NewNotificationQueue : Env -> Env.
(** [core.notifications.Notifications(constant.EntityNames.Core)]: the
    notifications queued for the kernel are taken out of the queue. *)
Variable Notifications : Env -> list Notification * Env.
(** Modelled from the spec: [core.handle(n)], a method of [Core] that is
    not in [kernel/core.go] and whose result [Run] drops.  From section
    4.3 it routes the notification to the bus or logs it: it acts on the
    collaborators and leaves the fields of [Core] alone. *)
Variable handle : Notification -> Env -> Env.

(** The interface [service.Service]: the hooks the kernel calls. *)
Record Service := {
  Name : string;
  Start : Env -> option error * Env;
  Configure_ : Properties -> Env -> option error * Env;
  Process : Env -> option error * Env;
  Stop_ : Env -> option error * Env
}.

Record Core := {
  services : list Service;
  internal : option error;
  state : StateType
}.

(** [Core{}] *)
Definition zero : Core := {| services := []; internal := None; state := 0%Z |}.

Inductive event :=
| Info (format : string) (args : list nat)
| Called (s : Service) (h : hook) (result : option error)
| Handled (n : Notification).

Record World := { env : Env; log : list event }.

Definition record (e : event) (w : World) : World :=
  {| env := env w; log := log w ++ [e] |}.

(** Calling a hook of a service: the hook runs on the collaborators' state
    and the call is written to the log with what it returned. *)
Definition call (s : Service) (h : hook) (f : Env -> option error * Env)
    (w : World) : option error * World :=
  let '(r, e) := f (env w) in
  (r, {| env := e; log := log w ++ [Called s h r] |}).

(** Modelled from the spec: [checkIf], a method of [Core] that is not in
    [kernel/core.go].  It keeps in [core.internal] the error of the hook
    of the service it checks and answers whether the hook went well.  From
    section 4.2: in [Configure], "if either fails, record the failure and
    abort"; in [Run], "on failure, abort immediately and return that
    error"; in [Stop], "if it reports success, [...] return that service's
    error immediately".  What the three methods return there is
    [core.internal]: after a hook that returned an error it holds that
    error, after a hook that returned [nil] it holds [nil]. *)
Definition checkIf (core : Core) (s : Service) (err : option error) (c : check)
    : bool * Core :=
  match err with
  | Some e => (false, {| services := services core; internal := Some e; state := state core |})
  | None => (true, {| services := services core; internal := None; state := state core |})
  end.

Definition set_state (st : StateType) (core : Core) : Core :=
  {| services := services core; internal := internal core; state := st |}.

(** The loops return [Some r] when their body executed [return r] and
    [None] when the range is exhausted. *)
Fixpoint configure_loop (props : Properties) (l : list Service) (core : Core)
    (w : World) : option (option error) * Core * World :=
  match l with
  | [] => (None, core, w)
  | s :: l' =>
      let '(r, w) := call s HStart (Start s) w in
      let '(ok, core) := checkIf core s r IsStarted in
      if negb ok then (Some (internal core), core, w)
      else
        let '(r, w) := call s HConfigure (Configure_ s props) w in
        let '(ok, core) := checkIf core s r IsConfigured in
        if negb ok then (Some (internal core), core, w)
        else configure_loop props l' core w
  end.

Definition Configure (svcs : list Service) (props : Properties)
    (core : Core) (w : World) : option error * Core * World :=
  if negb (IsLoaded props) then (Some "properties not loaded"%string, core, w)
  else
    let core := {| services := svcs; internal := internal core; state := state core |} in
    let w := {| env := NewNotificationQueue (env w); log := log w |} in
    let core := {| services := services core; internal := None; state := state core |} in
    let w := record (Info InfoStartServices []) w in
    match configure_loop props svcs core w with
    | (Some r, core, w) => (r, core, w)
    | (None, core, w) =>
        let w := record (Info InfoServicesStarted [length svcs]) w in
        (None, set_state (Idle States) core, w)
    end.

Fixpoint handle_all (ns : list Notification) (w : World) : World :=
  match ns with
  | [] => w
  | n :: ns' =>
      handle_all ns' {| env := handle n (env w); log := log w ++ [Handled n] |}
  end.

Fixpoint run_loop (l : list Service) (core : Core) (w : World)
    : option (option error) * Core * World :=
  match l with
  | [] => (None, core, w)
  | s :: l' =>
      let '(r, w) := call s HProcess (Process s) w in
      let '(ok, core) := checkIf core s r IsProcessed in
      if negb ok then (Some (internal core), core, w)
      else
        let '(ns, e) := Notifications (env w) in
        let w := handle_all ns {| env := e; log := log w |} in
        run_loop l' core w
  end.

Definition Run (core : Core) (w : World) : option error * Core * World :=
  let core := set_state (Working States) core in
  match run_loop (services core) core w with
  | (Some r, core, w) => (r, core, w)
  | (None, core, w) => (None, set_state (Idle States) core, w)
  end.

Fixpoint stop_loop (l : list Service) (core : Core) (w : World)
    : option (option error) * Core * World :=
  match l with
  | [] => (None, core, w)
  | s :: l' =>
      let '(r, w) := call s HStop (Stop_ s) w in
      let '(ok, core) := checkIf core s r IsStopped in
      if ok then (Some (internal core), core, w)
      else stop_loop l' core w
  end.

Definition Stop (core : Core) (w : World) : option error * Core * World :=
  match stop_loop (services core) core w with
  | (Some r, core, w) => (r, core, w)
  | (None, core, w) => (None, set_state (Stopped States) core, w)
  end.

Definition State (core : Core) : StateType := state core.

(** The calls of one hook in a log, with what each call returned. *)
Definition hook_eqb (a b : hook) : bool :=
  match a, b with
  | HStart, HStart | HConfigure, HConfigure
  | HProcess, HProcess | HStop, HStop => true
  | _, _ => false
  end.

Definition calls_of (h : hook) (l : list event) : list (Service * option error) :=
  flat_map (fun e => match e with
                     | Called s h' r => if hook_eqb h h' then [(s, r)] else []
                     | _ => []
                     end) l.

(** A history of calls of the three lifecycle methods, and what each call
    returned. *)
Inductive op :=
| OpConfigure (svcs : list Service) (props : Properties)
| OpRun
| OpStop.

Definition is_run (o : op) : bool :=
  match o with OpRun => true | _ => false end.

Definition step (o : op) (core : Core) (w : World) : option error * Core * World :=
  match o with
  | OpConfigure svcs props => Configure svcs props core w
  | OpRun => Run core w
  | OpStop => Stop core w
  end.

Fixpoint exec (ops : list op) (core : Core) (w : World)
    : list (option error) * Core * World :=
  match ops with
  | [] => ([], core, w)
  | o :: ops' =>
      let '(r, core, w) := step o core w in
      let '(rs, core, w) := exec ops' core w in
      (r :: rs, core, w)
  end.

End WithCollaborators.

Arguments Name {Env Properties} _.
Arguments Start {Env Properties} _ _.
Arguments Configure_ {Env Properties} _ _ _.
Arguments Process {Env Properties} _ _.
Arguments Stop_ {Env Properties} _ _.
Arguments services {Env Properties} _.
Arguments internal {Env Properties} _.
Arguments state {Env Properties} _.
Arguments State {Env Properties} _.
Arguments zero {Env Properties}.
Arguments Info {Env Properties Notification} _ _.
Arguments Called {Env Properties Notification} _ _ _.
Arguments Handled {Env Properties Notification} _.
Arguments env {Env Properties Notification} _.
Arguments log {Env Properties Notification} _.
Arguments checkIf {Env Properties} _ _ _ _.
Arguments set_state {Env Properties} _ _.
Arguments Configure {Env Properties Notification} _ _ _ _ _ _.
Arguments Run {Env Properties Notification} _ _ _ _.
Arguments Stop {Env Properties Notification} _ _.
Arguments run_loop {Env Properties Notification} _ _ _ _ _.
Arguments stop_loop {Env Properties Notification} _ _ _.
Arguments configure_loop {Env Properties Notification} _ _ _ _.
Arguments handle_all {Env Properties Notification} _ _ _.
Arguments calls_of {Env Properties Notification} _ _.
Arguments OpConfigure {Env Properties} _ _.
Arguments OpRun {Env Properties}.
Arguments OpStop {Env Properties}.
Arguments is_run {Env Properties} _.
Arguments exec {Env Properties Notification} _ _ _ _ _ _ _.
Arguments step {Env Properties Notification} _ _ _ _ _ _ _.
Arguments call {Env Properties Notification} _ _ _ _.

End Kernel.

(** ** Notification routing ([services/network/notification.go]) *)

Module Network.

Definition error := string.

Definition DebugNotificationHandled : string := "notification handled".
Definition UnhandledNotificationOrigin : string := "unhandled notification origin (%s)".
Definition UnknownContentType : string := "unknown content type".

(** Modelled from the spec: [constant.Channels], a table that is not among
    the sources.  Section 6 gives the names that [String()] yields:
    "Command", "Data" and "Error". *)
Record ChannelsTable := { Command : string; Data : string; Error : string }.
Definition Channels : ChannelsTable :=
  {| Command := "Command"; Data := "Data"; Error := "Error" |}.

Inductive level := Debug | Warn.

Section WithService.
(** The object types of package [object], what else a notification may
    carry, and the state behind the service's connection. *)
Variables CommandObject DataObject ErrorObject Other Conn : Type.

(** [constant.EntityNames.Services.Module] and
    [constant.EntityNames.Core]: their values are not among the sources. *)
Variables EntityNames_Services_Module EntityNames_Core : string.

(** [n.Content()] is an [interface{}]; the type switch tells a pointer to
    one of the three object types from everything else.  The pointers are
    taken to refer to an object: the handler dereferences them. *)
Inductive content :=
| PtrCommandObject (o : CommandObject)
| PtrDataObject (o : DataObject)
| PtrErrorObject (o : ErrorObject)
| OtherContent (v : Other).

Record Notification := { From : string; Content : content }.

(** The value handed to [emit]: the object a pointer refers to. *)
Inductive message :=
| MCommand (o : CommandObject)
| MData (o : DataObject)
| MError (o : ErrorObject).

(** [service.emit(channel, msg)], outside this file: it publishes and
    reports whether that went well. *)
Variable emit_result : string -> message -> Conn -> bool * Conn.

Inductive effect :=
| Log (l : level) (format : string) (bound : list string)
| Emit (channel : string) (m : message).

Record World := { conn : Conn; trace : list effect }.

Definition logger (l : level) (format : string) (bound : list string)
    (w : World) : World :=
  {| conn := conn w; trace := trace w ++ [Log l format bound] |}.

Definition emit (channel : string) (m : message) (w : World) : bool * World :=
  let '(ok, c) := emit_result channel m (conn w) in
  (ok, {| conn := c; trace := trace w ++ [Emit channel m] |}).

Definition defaultNotificationHandler (n : Notification) (w : World)
    : option error * World :=
  let '(succeed, w) :=
    match Content n with
    | PtrCommandObject o => emit (Command Channels) (MCommand o) w
    | PtrDataObject o => emit (Data Channels) (MData o) w
    | PtrErrorObject o => emit (Error Channels) (MError o) w
    | OtherContent _ => (true, logger Warn UnknownContentType [] w)
    end in
  if negb succeed then (Some "failed to emit message"%string, w)
  else (None, w).

Definition handle (n : Notification) (w : World) : option error * World :=
  let w := logger Debug DebugNotificationHandled [] w in
  if String.eqb (From n) EntityNames_Services_Module then
    (* fallthrough *)
    defaultNotificationHandler n w
  else if String.eqb (From n) EntityNames_Core then
    defaultNotificationHandler n w
  else
    (None, logger Warn UnhandledNotificationOrigin [From n] w).

(** The calls of [emit] and the warnings in a trace. *)
Definition emits (t : list effect) : list (string * message) :=
  flat_map (fun e => match e with Emit c m => [(c, m)] | _ => [] end) t.

Definition warnings (t : list effect) : list (string * list string) :=
  flat_map (fun e => match e with Log Warn f b => [(f, b)] | _ => [] end) t.

End WithService.

Arguments PtrCommandObject {CommandObject DataObject ErrorObject Other} _.
Arguments PtrDataObject {CommandObject DataObject ErrorObject Other} _.
Arguments PtrErrorObject {CommandObject DataObject ErrorObject Other} _.
Arguments OtherContent {CommandObject DataObject ErrorObject Other} _.
Arguments From {CommandObject DataObject ErrorObject Other} _.
Arguments Content {CommandObject DataObject ErrorObject Other} _.
Arguments MCommand {CommandObject DataObject ErrorObject} _.
Arguments MData {CommandObject DataObject ErrorObject} _.
Arguments MError {CommandObject DataObject ErrorObject} _.
Arguments Log {CommandObject DataObject ErrorObject} _ _ _.
Arguments Emit {CommandObject DataObject ErrorObject} _ _.
Arguments conn {CommandObject DataObject ErrorObject Conn} _.
Arguments trace {CommandObject DataObject ErrorObject Conn} _.
Arguments emits {CommandObject DataObject ErrorObject} _.
Arguments warnings {CommandObject DataObject ErrorObject} _.
Arguments handle {CommandObject DataObject ErrorObject Other Conn} _ _ _ _ _.
Arguments defaultNotificationHandler {CommandObject DataObject ErrorObject Other Conn} _ _ _.

End Network.

(** ** Concrete inputs *)

Module Examples.
Import Event.

(** Payloads are strings and reply handlers are numbered. *)
Definition w0 : World string nat := empty_world.

Definition onA : EventConsumer := {| fn_name := "main.onA"; fn_env := 0 |}.
Definition onB : EventConsumer := {| fn_name := "main.onB"; fn_env := 0 |}.
(** Another closure of the function of [onA]. *)
Definition onA' : EventConsumer := {| fn_name := "main.onA"; fn_env := 1 |}.

Definition subA : subscriber := {| id := "c:main.onA"; ch := 0; cancel := 1 |}.
Definition subB : subscriber := {| id := "c:main.onB"; ch := 2; cancel := 3 |}.

(** [onA] then [onB] subscribed on channel "c" of a new bus. *)
Definition w_a : World string nat := (Subscribe "c" onA w0).2.
Definition w_ab : World string nat := (Subscribe "c" onB w_a).2.

End Examples.

Module KernelExamples.
Import Kernel.

(** The collaborators' state counts the hook calls made so far; properties
    are their own "loaded" flag; the queue is always empty. *)
Definition IsLoaded (props : bool) : bool := props.
Definition NewNotificationQueue (x : nat) : nat := x.
Definition Notifications (x : nat) : list nat * nat := ([], x).
Definition handle (n : nat) (x : nat) : nat := x.

Definition answer (r : option error) (x : nat) : option error * nat := (r, S x).

(** Every hook returns nil. *)
Definition steady : Service nat bool :=
  {| Name := "steady"; Start := answer None; Configure_ := fun _ => answer None;
     Process := answer None; Stop_ := answer None |}.

(** Starts and configures, then fails in [Process] and in [Stop]. *)
Definition grumpy : Service nat bool :=
  {| Name := "grumpy"; Start := answer None; Configure_ := fun _ => answer None;
     Process := answer (Some "process failed"%string);
     Stop_ := answer (Some "stop failed"%string) |}.

(** Fails in [Start] and in [Process]; its [Stop] returns nil. *)
Definition unstartable : Service nat bool :=
  {| Name := "unstartable"; Start := answer (Some "start failed"%string);
     Configure_ := fun _ => answer None;
     Process := answer (Some "process failed"%string); Stop_ := answer None |}.

Definition kw0 : World nat bool nat := {| env := 0; log := [] |}.

(** A configured kernel over the given services. *)
Definition configured (svcs : list (Service nat bool)) : Core nat bool :=
  (Configure IsLoaded NewNotificationQueue svcs true zero kw0).1.2.

End KernelExamples.

Module NetworkExamples.
Import Network.

(** Objects are strings, anything else is a number, the connection has no
    state and every [emit] goes well. *)
Definition emit_result (channel : string) (m : message string string string)
    (c : unit) : bool * unit := (true, c).

Definition module_name : string := "module".
Definition core_name : string := "core".

Definition nw0 : World string string string unit := {| conn := tt; trace := [] |}.

Definition data_from_core : Notification string string string nat :=
  {| From := "core"; Content := PtrDataObject "42" |}.
Definition number_from_module : Notification string string string nat :=
  {| From := "module"; Content := OtherContent 7 |}.
Definition data_from_stranger : Notification string string string nat :=
  {| From := "stranger"; Content := PtrDataObject "42" |}.

End NetworkExamples.

(** ** Histories of bus calls *)

Module EventHistory.
Import Event.

(** Every known id is the id of a registration held by the table. *)
Definition known_ids_registered (b : Bus) : Prop :=
  forall i : string, i ∈ ids b ->
    exists (channel : string) (l : list subscriber) (s : subscriber),
      subscribers b !! channel = Some l /\ s ∈ l /\ id s = i.

Section WithPayload.
Variables Payload ReplyHandler : Type.

Inductive call :=
| CallPublish (channel : string) (data : Payload) (handler : option ReplyHandler)
| CallSubscribe (channel : string) (handler : EventConsumer)
| CallUnsubscribe (channel : string) (handler : EventConsumer).

(** The world after one call, whatever the call answered. *)
Definition after (c : call) (w : World Payload ReplyHandler)
    : World Payload ReplyHandler :=
  match c with
  | CallPublish channel data handler => (Publish channel data handler w).2
  | CallSubscribe channel handler => (Subscribe channel handler w).2
  | CallUnsubscribe channel handler => (Unsubscribe channel handler w).2
  end.

(** The world after a sequence of calls on a new bus. *)
Definition history (cs : list call) : World Payload ReplyHandler :=
  fold_left (fun w c => after c w) cs empty_world.

(** The effects of a trace that are not part of a [Publish]. *)
Definition registry_effects (t : list (effect Payload ReplyHandler))
    : list (effect Payload ReplyHandler) :=
  flat_map (fun e => match e with
                     | GoWorker _ _ _ | Cancel _ => [e]
                     | _ => []
                     end) t.

End WithPayload.

Arguments CallPublish {Payload ReplyHandler} _ _ _.
Arguments CallSubscribe {Payload ReplyHandler} _ _.
Arguments CallUnsubscribe {Payload ReplyHandler} _ _.
Arguments after {Payload ReplyHandler} _ _.
Arguments history {Payload ReplyHandler} _.
Arguments registry_effects {Payload ReplyHandler} _.

End EventHistory.

Module MoreExamples.
Import Kernel.

(** Starts, then fails in its [Configure] hook. *)
Definition misconfigured : Service nat bool :=
  {| Name := "misconfigured"; Start := KernelExamples.answer None;
     Configure_ := fun _ => KernelExamples.answer (Some "configure failed"%string);
     Process := KernelExamples.answer None; Stop_ := KernelExamples.answer None |}.

(** An [emit] that never goes well. *)
Definition emit_fails (channel : string) (m : Network.message string string string)
    (c : unit) : bool * unit := (false, c).

End MoreExamples.

(** * Properties *)

Module SliceFacts.
Import Slice.
Section SliceFacts.
Context {A : Type}.
Implicit Types s arr xs : list A.

Lemma write_at_length i xs arr :
  i + length xs <= length arr -> length (write_at i xs arr) = length arr.
Proof.
  intros H. unfold write_at.
  rewrite !length_app, length_take, length_drop. lia.
Qed.

Lemma delete_at_length_local i s :
  i < length s -> length (delete_at i s).1 = length s - 1.
Proof.
  intros H. cbn. rewrite length_app, length_take, length_drop. lia.
Qed.

Lemma delete_at_length_shared i s :
  i < length s -> length (delete_at i s).2 = length s.
Proof.
  intros H. cbn. apply write_at_length. rewrite length_drop. lia.
Qed.

(** Deleting the last element leaves the cells of the array as they were. *)
Lemma delete_at_last_shared s x :
  (delete_at (length s) (s ++ [x])).2 = s ++ [x].
Proof.
  unfold delete_at, write_at; cbn [snd].
  rewrite (drop_ge (s ++ [x]) (S (length s))) by (rewrite length_app; cbn; lia).
  cbn [length app]. rewrite Nat.add_0_r, take_app_length, drop_app_length.
  reflexivity.
Qed.
End SliceFacts.
End SliceFacts.

(** ** The event bus *)

Module EventFacts.
Import Event.

Section EventFacts.
Variables Payload ReplyHandler : Type.
Implicit Types w : World Payload ReplyHandler.
Implicit Types subs : list subscriber.
Implicit Types handler : option ReplyHandler.
Implicit Types data : Payload.

Lemma event_at_shift (data : Payload) n k :
  event_at data n (S k) = event_at data (S (S n)) k.
Proof. unfold event_at. f_equal; lia. Qed.

Lemma turn_shift data handler n k s :
  turn data handler n (S k) s = turn data handler (S (S n)) k s.
Proof. unfold turn. rewrite event_at_shift. reflexivity. Qed.

Lemma publish_to_eq data handler s w :
  publish_to data handler s w
  = (tt, {| bus := bus w; fresh := S (S (fresh w));
            trace := trace w ++ turn data handler (fresh w) 0 s |}).
Proof.
  unfold publish_to, turn, event_at, bind, make, perform, ret; cbn.
  rewrite !Nat.add_0_r.
  destruct handler; cbn; rewrite <- ?app_assoc; reflexivity.
Qed.

(** The whole loop: the turns follow the order of the list, the table of
    the bus is not touched, two conduits are made per subscriber. *)
Lemma for_range_publish data handler subs : forall w,
  for_range subs (publish_to data handler) w
  = (tt, {| bus := bus w; fresh := fresh w + 2 * length subs;
            trace := trace w ++ concat (imap (turn data handler (fresh w)) subs) |}).
Proof.
  induction subs as [|s subs IH]; intros w.
  - cbn. unfold ret. destruct w; cbn. rewrite Nat.add_0_r, app_nil_r. reflexivity.
  - cbn [for_range]. unfold bind at 1. rewrite publish_to_eq, IH.
    cbn [bus fresh trace length imap concat].
    rewrite <- app_assoc.
    rewrite (imap_ext (turn data handler (fresh w) ∘ S)
               (turn data handler (S (S (fresh w)))) subs)
      by (intros; apply turn_shift).
    f_equal. f_equal. lia.
Qed.

Lemma Publish_found channel data handler subs w :
  subscribers (bus w) !! channel = Some subs ->
  Publish channel data handler w
  = (tt, {| bus := bus w; fresh := fresh w + 2 * length subs;
            trace := trace w ++ concat (imap (turn data handler (fresh w)) subs) |}).
Proof.
  intros H. unfold Publish, bind, get_bus. cbv beta iota. rewrite H.
  cbv beta iota. rewrite H. cbn [default].
  apply for_range_publish.
Qed.

Lemma consume_calls_app (t1 t2 : list (effect Payload ReplyHandler)) :
  consume_calls (t1 ++ t2) = consume_calls t1 ++ consume_calls t2.
Proof. unfold consume_calls. apply flat_map_app. Qed.

Lemma deliveries_app (t1 t2 : list (effect Payload ReplyHandler)) :
  deliveries (t1 ++ t2) = deliveries t1 ++ deliveries t2.
Proof. unfold deliveries. apply flat_map_app. Qed.

Lemma consume_calls_turns data (h : ReplyHandler) subs : forall n,
  consume_calls (concat (imap (turn data (Some h) n) subs))
  = imap (fun k _ => (h, Some (reply (event_at data n k)),
                      Some (errorc (event_at data n k)),
                      None, replyTimeout)) subs.
Proof.
  induction subs as [|s subs IH]; intros n; [reflexivity|].
  cbn [imap concat]. rewrite consume_calls_app. cbn [turn consume_calls flat_map app].
  f_equal.
  rewrite (imap_ext _ (turn data (Some h) (S (S n))) subs)
    by (intros; apply turn_shift).
  fold (consume_calls (concat (imap (turn data (Some h) (S (S n))) subs))).
  rewrite IH. apply imap_ext. intros k x _. unfold compose.
  rewrite event_at_shift. reflexivity.
Qed.

Lemma deliveries_turns data handler subs : forall n,
  deliveries (concat (imap (turn data handler n) subs))
  = imap (fun k s => (ch s, event_at data n k)) subs.
Proof.
  induction subs as [|s subs IH]; intros n; [reflexivity|].
  cbn [imap concat]. rewrite deliveries_app.
  rewrite (imap_ext _ (turn data handler (S (S n))) subs)
    by (intros; apply turn_shift).
  rewrite IH. unfold turn at 1.
  destruct handler; cbn [deliveries flat_map app]; f_equal;
    apply imap_ext; intros k x _; unfold compose; rewrite event_at_shift;
    reflexivity.
Qed.

(** *** Publish *)

(** C3. When the table holds the list [subs] for [channel] and a handler
    is given, [Publish] goes through [subs] in the order of the list, which
    is the order of registration ([Subscribe] appends).  For the [k]-th
    subscriber it makes an [Event], starts the delivery of that [Event] to
    the subscriber's queue and calls [handler.consume] with the reply
    conduit and the error conduit of that same [Event], a nil error and
    25 ms.  The calls are part of what [Publish] has done when it returns:
    there are [length subs] of them, and the table is left as it was. *)
Theorem Publish_calls_handler_once_per_subscriber
    channel data (h : ReplyHandler) subs w :
  subscribers (bus w) !! channel = Some subs ->
  1 <= length subs ->
  let new :=
    concat (imap (fun k s =>
      [GoDeliver (ch s) (event_at data (fresh w) k);
       Consume h (Some (reply (event_at data (fresh w) k)))
         (Some (errorc (event_at data (fresh w) k))) None 25000000%Z]) subs) in
  Publish channel data (Some h) w
  = (tt, {| bus := bus w; fresh := fresh w + 2 * length subs;
            trace := trace w ++ new |})
  /\ consume_calls new
     = imap (fun k _ => (h, Some (reply (event_at data (fresh w) k)),
                         Some (errorc (event_at data (fresh w) k)),
                         None, 25000000%Z)) subs
  /\ length (consume_calls new) = length subs
  /\ deliveries new = imap (fun k s => (ch s, event_at data (fresh w) k)) subs.
Proof.
  intros Hsubs _ new.
  assert (Hnew : new = concat (imap (turn data (Some h) (fresh w)) subs))
    by reflexivity.
  rewrite Hnew. split; [apply Publish_found, Hsubs|].
  rewrite consume_calls_turns, deliveries_turns, length_imap.
  repeat split.
Qed.

(** C4. When the table has no entry for [channel], [Publish] with a
    handler calls [handler.consume(nil, nil, ErrChannelNotFound, 0)] once
    and does nothing else: no delivery is started, nothing is allocated,
    the bus is the same.  Without a handler the world is left as it was. *)
Theorem Publish_without_subscribers channel data w :
  subscribers (bus w) !! channel = None ->
  (forall h : ReplyHandler,
      Publish channel data (Some h) w
      = (tt, {| bus := bus w; fresh := fresh w;
                trace := trace w ++ [Consume h None None (Some ErrChannelNotFound) 0%Z] |})
      /\ deliveries [Consume (Payload := Payload) h None None
                       (Some ErrChannelNotFound) 0%Z] = [])
  /\ Publish channel data None w = (tt, w).
Proof.
  intros H. unfold Publish, bind, get_bus, perform, ret. cbv beta iota.
  rewrite H. repeat split.
Qed.

(** *** Subscribe *)

Lemma Subscribe_eq channel (handler : EventConsumer) w :
  Subscribe channel handler w
  = let i := subscriber_id channel handler in
    let t := trace w ++ [GoWorker (fresh w) (S (fresh w)) handler] in
    if decide (i ∈ ids (bus w)) then
      (Some ErrChannelSubscriberAlreadyExists,
       {| bus := bus w; fresh := S (S (fresh w)); trace := t |})
    else
      (None,
       {| bus := {| subscribers :=
                      <[channel := default [] (subscribers (bus w) !! channel)
                                   ++ [ {| id := i; ch := fresh w; cancel := S (fresh w) |} ]]>
                        (subscribers (bus w));
                    ids := {[ i ]} ∪ ids (bus w) |};
          fresh := S (S (fresh w)); trace := t |}).
Proof.
  unfold Subscribe, bind, make, perform, get_bus, put_bus, ret. cbn.
  destruct (decide _); reflexivity.
Qed.

Lemma string_length_append (s t : string) :
  String.length (s +:+ t) = String.length s + String.length t.
Proof. induction s as [|a s IH]; simpl; [reflexivity | f_equal; exact IH]. Qed.

Lemma string_append_cancel_r (t : string) : forall s1 s2 : string,
  s1 +:+ t = s2 +:+ t -> s1 = s2.
Proof.
  induction s1 as [|a s1 IH]; intros [|b s2] H.
  - reflexivity.
  - apply (f_equal String.length) in H.
    rewrite !string_length_append in H. cbn in H. lia.
  - apply (f_equal String.length) in H.
    rewrite !string_length_append in H. cbn in H. lia.
  - cbn in H. injection H as -> H. f_equal. apply IH, H.
Qed.

(** The id tells the channel names of one consumer apart. *)
Lemma subscriber_id_channel c1 c2 (handler : EventConsumer) :
  subscriber_id c1 handler = subscriber_id c2 handler -> c1 = c2.
Proof. unfold subscriber_id. apply string_append_cancel_r. Qed.

(** The id sees of a consumer only the name of its function. *)
Lemma subscriber_id_name channel (h1 h2 : EventConsumer) :
  fn_name h1 = fn_name h2 -> subscriber_id channel h1 = subscriber_id channel h2.
Proof. unfold subscriber_id. intros ->. reflexivity. Qed.

(** C9. When [Subscribe] answers [ErrChannelSubscriberAlreadyExists] the
    bus is the one it was given: no registration was added to any list and
    the set of known ids is the same.  What the call has done is to start
    the worker task of the registration it then rejected. *)
Theorem Subscribe_rejected_leaves_bus channel (handler : EventConsumer) w w' :
  Subscribe channel handler w = (Some ErrChannelSubscriberAlreadyExists, w') ->
  bus w' = bus w
  /\ subscribers (bus w') = subscribers (bus w)
  /\ ids (bus w') = ids (bus w)
  /\ trace w' = trace w ++ [GoWorker (fresh w) (S (fresh w)) handler].
Proof.
  rewrite Subscribe_eq. cbv zeta. destruct (decide _); intros H.
  - injection H as <-. repeat split.
  - discriminate H.
Qed.

(** C5. (1) A second [Subscribe] on the same channel with a consumer of
    the same function name, hence the same id, right after a first one,
    answers [ErrChannelSubscriberAlreadyExists].  (2) One consumer
    subscribed on two different channel names, neither id being known
    before, is accepted both times.  (3) An accepted [Subscribe] has put the
    new registration at the end of the channel's list and its id in the set
    of known ids. *)
Theorem Subscribe_duplicates_and_records :
  (forall w channel (h1 h2 : EventConsumer),
      fn_name h1 = fn_name h2 ->
      (Subscribe channel h2 (Subscribe channel h1 w).2).1
      = Some ErrChannelSubscriberAlreadyExists)
  /\ (forall w c1 c2 (handler : EventConsumer),
         c1 <> c2 ->
         subscriber_id c1 handler ∉ ids (bus w) ->
         subscriber_id c2 handler ∉ ids (bus w) ->
         (Subscribe c1 handler w).1 = None
         /\ (Subscribe c2 handler (Subscribe c1 handler w).2).1 = None)
  /\ (forall w channel (handler : EventConsumer) w',
         Subscribe channel handler w = (None, w') ->
         subscribers (bus w') !! channel
         = Some (default [] (subscribers (bus w) !! channel)
                 ++ [ {| id := subscriber_id channel handler;
                         ch := fresh w; cancel := S (fresh w) |} ])
         /\ subscriber_id channel handler ∈ ids (bus w')).
Proof.
  split; [|split].
  - intros w channel h1 h2 Hname.
    rewrite (Subscribe_eq channel h2), (Subscribe_eq channel h1). cbv zeta.
    rewrite <- (subscriber_id_name channel h1 h2 Hname).
    destruct (decide (subscriber_id channel h1 ∈ ids (bus w))) as [Hin|Hout]; cbn.
    + destruct (decide _) as [|Hn]; [reflexivity | contradiction].
    + destruct (decide _) as [|Hn]; [reflexivity | exfalso; apply Hn; set_solver].
  - intros w c1 c2 handler Hne H1 H2.
    rewrite (Subscribe_eq c2), (Subscribe_eq c1). cbv zeta.
    destruct (decide (subscriber_id c1 handler ∈ ids (bus w))) as [|_];
      [contradiction|]. cbn.
    split; [reflexivity|].
    destruct (decide _) as [Hin|]; [|reflexivity].
    exfalso. apply elem_of_union in Hin as [Hin|Hin]; [|contradiction].
    apply elem_of_singleton in Hin. apply Hne. symmetry.
    apply (subscriber_id_channel _ _ handler). congruence.
  - intros w channel handler w'. rewrite Subscribe_eq. cbv zeta.
    destruct (decide _); intros H; [discriminate H|].
    injection H as <-. cbn. rewrite lookup_insert_eq. split; [reflexivity|].
    set_solver.
Qed.

(** *** Unsubscribe *)

Lemma Unsubscribe_found channel (handler : EventConsumer) w sub n sbcr :
  subscribers (bus w) !! channel = Some sub ->
  range_find 0 (subscriber_id channel handler) sub = Some (n, sbcr) ->
  Unsubscribe channel handler w
  = (None,
     {| bus :=
          {| subscribers :=
               if Nat.eqb (length (Slice.delete_at n sub).1) 0
               then delete channel
                      (<[channel := (Slice.delete_at n sub).2]> (subscribers (bus w)))
               else <[channel := (Slice.delete_at n sub).2]> (subscribers (bus w));
             ids := ids (bus w) ∖ {[ subscriber_id channel handler ]} |};
        fresh := fresh w;
        trace := trace w ++ [Cancel (cancel sbcr)] |}).
Proof.
  intros Hsub Hfind. unfold Unsubscribe, bind, get_bus. cbv beta iota.
  rewrite Hsub. cbv zeta. rewrite Hfind. reflexivity.
Qed.

Lemma range_find_last wanted sbcr : forall (pre : list subscriber) i,
  Forall (fun s => id s <> wanted) pre ->
  id sbcr = wanted ->
  range_find i wanted (pre ++ [sbcr]) = Some (i + length pre, sbcr).
Proof.
  induction pre as [|s pre IH]; intros i Hpre Hid; cbn.
  - apply String.eqb_eq in Hid. rewrite Hid, Nat.add_0_r. reflexivity.
  - apply Forall_cons in Hpre as [Hs Hpre'].
    apply String.eqb_neq in Hs. rewrite Hs, IH by assumption.
    do 2 f_equal. lia.
Qed.

(** The one registration of a channel: the entry of the channel goes. *)
Lemma Unsubscribe_only_registration channel (handler : EventConsumer) w sbcr :
  subscribers (bus w) !! channel = Some [sbcr] ->
  id sbcr = subscriber_id channel handler ->
  (Unsubscribe channel handler w).1 = None
  /\ subscribers (bus (Unsubscribe channel handler w).2) !! channel = None.
Proof.
  intros Hsub Hid.
  rewrite (Unsubscribe_found channel handler w [sbcr] 0 sbcr Hsub).
  - cbn. rewrite lookup_delete_eq. split; reflexivity.
  - cbn. apply String.eqb_eq in Hid. rewrite Hid. reflexivity.
Qed.

(** The last registration of a longer list: [append] has nothing to move,
    the array is as it was and the map still holds its header of the old
    length, so the table keeps the registration; only the id goes. *)
Lemma Unsubscribe_last_of_several channel (handler : EventConsumer) w pre sbcr :
  subscribers (bus w) !! channel = Some (pre ++ [sbcr]) ->
  pre <> [] ->
  Forall (fun s => id s <> subscriber_id channel handler) pre ->
  id sbcr = subscriber_id channel handler ->
  (Unsubscribe channel handler w).1 = None
  /\ subscribers (bus (Unsubscribe channel handler w).2) = subscribers (bus w)
  /\ subscriber_id channel handler ∉ ids (bus (Unsubscribe channel handler w).2).
Proof.
  intros Hsub Hne Hpre Hid.
  rewrite (Unsubscribe_found channel handler w (pre ++ [sbcr]) (length pre) sbcr Hsub)
    by (rewrite (range_find_last _ sbcr pre 0 Hpre Hid); reflexivity).
  cbn [fst snd bus subscribers ids].
  rewrite SliceFacts.delete_at_last_shared.
  rewrite SliceFacts.delete_at_length_local by (rewrite length_app; cbn; lia).
  rewrite length_app. cbn [length].
  destruct pre as [|s pre']; [contradiction|]. cbn [length].
  replace (S (length pre') + 1 - 1 =? 0) with false
    by (symmetry; apply Nat.eqb_neq; lia).
  split; [reflexivity|]. split; [apply insert_id, Hsub|].
  cbn. intros Hin. apply elem_of_difference in Hin as [_ Hin].
  apply Hin, elem_of_singleton. reflexivity.
Qed.

(** *** The table has no empty list *)

Lemma range_find_bound wanted : forall (sub : list subscriber) i n sbcr,
  range_find i wanted sub = Some (n, sbcr) -> i <= n < i + length sub.
Proof.
  induction sub as [|s sub IH]; intros i n sbcr H; cbn in H; [discriminate|].
  destruct (String.eqb (id s) wanted).
  - injection H as <- _. cbn. lia.
  - apply IH in H. cbn. lia.
Qed.

Lemma empty_world_no_empty_list :
  no_empty_list (bus (empty_world (Payload := Payload) (ReplyHandler := ReplyHandler))).
Proof. intros c l H. cbn in H. rewrite lookup_empty in H. discriminate. Qed.

Lemma Subscribe_no_empty_list channel (handler : EventConsumer) w :
  no_empty_list (bus w) ->
  no_empty_list (bus (Subscribe channel handler w).2).
Proof.
  intros Hinv. rewrite Subscribe_eq. cbv zeta.
  destruct (decide _); cbn [snd bus]; [exact Hinv|].
  intros c l. cbn [subscribers].
  destruct (decide (channel = c)) as [->|Hne].
  - rewrite lookup_insert_eq. intros [= <-]. intros H.
    apply app_eq_nil in H as [_ H]. discriminate H.
  - rewrite lookup_insert_ne by exact Hne. apply Hinv.
Qed.

Lemma Unsubscribe_no_empty_list channel (handler : EventConsumer) w :
  no_empty_list (bus w) ->
  no_empty_list (bus (Unsubscribe channel handler w).2).
Proof.
  intros Hinv.
  destruct (subscribers (bus w) !! channel) as [sub|] eqn:Hsub.
  - destruct (range_find 0 (subscriber_id channel handler) sub)
      as [[n sbcr]|] eqn:Hfind.
    + rewrite (Unsubscribe_found channel handler w sub n sbcr Hsub Hfind).
      apply range_find_bound in Hfind.
      intros c l. cbn [snd bus subscribers].
      destruct (decide (channel = c)) as [->|Hne].
      * destruct (length (Slice.delete_at n sub).1 =? 0).
        -- rewrite lookup_delete_eq. discriminate.
        -- rewrite lookup_insert_eq. intros [= <-] H.
           apply (f_equal length) in H.
           rewrite SliceFacts.write_at_length in H by (rewrite length_drop; lia).
           cbn in H. lia.
      * destruct (length (Slice.delete_at n sub).1 =? 0);
          rewrite ?lookup_delete_ne, lookup_insert_ne by exact Hne; apply Hinv.
    + unfold Unsubscribe, bind, get_bus, ret. cbv beta iota.
      rewrite Hsub. cbv zeta. rewrite Hfind. exact Hinv.
  - unfold Unsubscribe, bind, get_bus, ret. cbv beta iota.
    rewrite Hsub. exact Hinv.
Qed.

(** On such a table, the list that [Publish] ranges over is empty exactly
    when the channel has no entry. *)
Lemma no_entry_iff_no_subscriber (b : Bus) channel :
  no_empty_list b ->
  subscribers b !! channel = None <-> default [] (subscribers b !! channel) = [].
Proof.
  intros Hinv. destruct (subscribers b !! channel) as [l|] eqn:H; cbn.
  - split; [discriminate|]. intros ->. exfalso. exact (Hinv channel [] H eq_refl).
  - split; reflexivity.
Qed.

End EventFacts.

(** *** On concrete inputs *)

Import Examples.

Lemma w_ab_table : subscribers (bus w_ab) !! "c"%string = Some [subA; subB].
Proof. vm_compute. reflexivity. Qed.

(** C1. [onA] and [onB] are registered on "c", in that order.
    [Unsubscribe("c", onB)] answers nil, cancels the token of [onB] and
    takes its id out of the known ids, but the list of "c" in the table
    still holds the registration of [onB].  After [Unsubscribe("c", onA)],
    which also answers nil, no id is known, the entry of "c" is still
    there, holding the registration of [onB] twice, and a [Publish] on "c"
    calls the handler twice with a nil error instead of once with
    [ErrChannelNotFound]. *)
Theorem Unsubscribe_keeps_registration_in_table :
  let r := Unsubscribe "c" onB w_ab in
  let r' := Unsubscribe "c" onA r.2 in
  r.1 = None
  /\ trace r.2 = trace w_ab ++ [Cancel 3]
  /\ bool_decide (subscriber_id "c" onB ∈ ids (bus r.2)) = false
  /\ subscribers (bus r.2) !! "c"%string = Some [subA; subB]
  /\ r'.1 = None
  /\ bool_decide (subscriber_id "c" onA ∈ ids (bus r'.2)) = false
  /\ subscribers (bus r'.2) !! "c"%string = Some [subB; subB]
  /\ consume_calls (trace (Publish "c" "x"%string (Some 7) r'.2).2)
     = [(7, Some 4, Some 5, None, 25000000%Z);
        (7, Some 6, Some 7, None, 25000000%Z)].
Proof. vm_compute. repeat split. Qed.

Lemma Publish_calls_handler_once_per_subscriber_witness :
  subscribers (bus w_ab) !! "c"%string = Some [subA; subB]
  /\ 1 <= length [subA; subB]
  /\ consume_calls (trace (Publish "c" "x"%string (Some 7) w_ab).2)
     = [(7, Some 4, Some 5, None, 25000000%Z);
        (7, Some 6, Some 7, None, 25000000%Z)].
Proof.
  split; [exact w_ab_table|]. split; [cbn; lia|].
  pose proof (Publish_calls_handler_once_per_subscriber string nat
                "c" "x"%string 7 [subA; subB] w_ab w_ab_table
                ltac:(cbn; lia)) as [H _].
  rewrite H. vm_compute. reflexivity.
Defined.

Lemma Publish_without_subscribers_witness :
  subscribers (bus w_ab) !! "d"%string = None
  /\ Publish "d" "x"%string (Some 7) w_ab
     = (tt, {| bus := bus w_ab; fresh := fresh w_ab;
               trace := trace w_ab ++ [Consume 7 None None (Some ErrChannelNotFound) 0%Z] |})
  /\ Publish "d" "x"%string (None : option nat) w_ab = (tt, w_ab).
Proof.
  assert (H : subscribers (bus w_ab) !! "d"%string = None)
    by (vm_compute; reflexivity).
  split; [exact H|].
  destruct (Publish_without_subscribers string nat "d" "x"%string w_ab H)
    as [Hsome Hnone].
  split; [exact (proj1 (Hsome 7)) | exact Hnone].
Defined.

Lemma Subscribe_rejected_leaves_bus_witness :
  Subscribe "c" onA' w_ab
  = (Some ErrChannelSubscriberAlreadyExists,
     {| bus := bus w_ab; fresh := 6; trace := trace w_ab ++ [GoWorker 4 5 onA'] |})
  /\ bus (Subscribe "c" onA' w_ab).2 = bus w_ab.
Proof.
  assert (H : Subscribe "c" onA' w_ab
              = (Some ErrChannelSubscriberAlreadyExists,
                 {| bus := bus w_ab; fresh := 6;
                    trace := trace w_ab ++ [GoWorker 4 5 onA'] |}))
    by (vm_compute; reflexivity).
  split; [exact H|].
  rewrite H.
  exact (proj1 (Subscribe_rejected_leaves_bus string nat "c" onA' w_ab _ H)).
Defined.

Lemma Subscribe_duplicates_and_records_witness :
  (Subscribe "c" onA' (Subscribe "c" onA w0).2).1
  = Some ErrChannelSubscriberAlreadyExists
  /\ ("c" <> "d" :> string)
  /\ (subscriber_id "c" onA ∉ ids (bus w0))
  /\ (subscriber_id "d" onA ∉ ids (bus w0))
  /\ (Subscribe "c" onA w0).1 = None
  /\ (Subscribe "d" onA (Subscribe "c" onA w0).2).1 = None
  /\ subscribers (bus w_a) !! "c"%string = Some ([] ++ [subA]).
Proof.
  destruct (Subscribe_duplicates_and_records string nat) as (Hdup & Hdiff & Hrec).
  assert (Hcd : "c" <> "d" :> string) by discriminate.
  assert (Hc : subscriber_id "c" onA ∉ ids (bus w0)) by apply not_elem_of_empty.
  assert (Hd : subscriber_id "d" onA ∉ ids (bus w0)) by apply not_elem_of_empty.
  split; [exact (Hdup w0 "c"%string onA onA' eq_refl)|].
  split; [exact Hcd|]. split; [exact Hc|]. split; [exact Hd|].
  destruct (Hdiff w0 "c"%string "d"%string onA Hcd Hc Hd) as [H1 H2].
  split; [exact H1|]. split; [exact H2|].
  exact (proj1 (Hrec w0 "c"%string onA w_a ltac:(vm_compute; reflexivity))).
Defined.

End EventFacts.

(** ** The kernel *)

Module KernelFacts.
Import Kernel.

Section KernelFacts.
Variables Env Properties Notification : Type.
Variable IsLoaded : Properties -> bool.
Variable NewNotificationQueue : Env -> Env.
Variable Notifications : Env -> list Notification * Env.
Variable handle : Notification -> Env -> Env.

Implicit Types core : Core Env Properties.
Implicit Types w : World Env Properties Notification.
Implicit Types s : Service Env Properties.
Implicit Types l pre post : list (Service Env Properties).
Implicit Types new : list (event Env Properties Notification).

Lemma calls_of_app h (t1 t2 : list (event Env Properties Notification)) :
  calls_of h (t1 ++ t2) = calls_of h t1 ++ calls_of h t2.
Proof. unfold calls_of. apply flat_map_app. Qed.

Lemma calls_of_Handled h (ns : list Notification) :
  calls_of h (map (Handled (Env := Env) (Properties := Properties)) ns) = [].
Proof. induction ns as [|n ns IH]; [reflexivity | exact IH]. Qed.

Lemma handle_all_eq (ns : list Notification) : forall w,
  handle_all handle ns w
  = {| env := fold_left (fun x n => handle n x) ns (env w);
       log := log w ++ map Handled ns |}.
Proof.
  induction ns as [|n ns IH]; intros w; cbn.
  - rewrite app_nil_r. destruct w; reflexivity.
  - rewrite IH. cbn. rewrite <- app_assoc. reflexivity.
Qed.

(** *** Run *)

(** One turn of the loop of [Run] on a service whose [Process] returns nil. *)
Lemma run_loop_cons_ok s l core w x :
  Process s (env w) = (None, x) ->
  run_loop Notifications handle (s :: l) core w
  = run_loop Notifications handle l
      {| services := services core; internal := None; state := state core |}
      {| env := fold_left (fun x n => handle n x) (Notifications x).1 (Notifications x).2;
         log := (log w ++ [Called s HProcess None])
                ++ map Handled (Notifications x).1 |}.
Proof.
  intros H. cbn [run_loop]. unfold call. rewrite H. cbn.
  destruct (Notifications x) as [ns x']. rewrite handle_all_eq. reflexivity.
Qed.

(** One turn on a service whose [Process] returns an error. *)
Lemma run_loop_cons_fail s l core w x e :
  Process s (env w) = (Some e, x) ->
  run_loop Notifications handle (s :: l) core w
  = (Some (Some e),
     {| services := services core; internal := Some e; state := state core |},
     {| env := x; log := log w ++ [Called s HProcess (Some e)] |}).
Proof. intros H. cbn [run_loop]. unfold call. rewrite H. reflexivity. Qed.

Lemma run_loop_all_ok l :
  Forall (fun s => forall x, (Process s x).1 = None) l ->
  forall core w, exists x new,
    run_loop Notifications handle l core w
    = (None,
       {| services := services core;
          internal := match l with [] => internal core | _ :: _ => None end;
          state := state core |},
       {| env := x; log := log w ++ new |})
    /\ calls_of HProcess new = map (fun s => (s, None)) l.
Proof.
  induction l as [|s l IH]; intros Hok core w.
  - exists (env w), []. cbn. rewrite app_nil_r. destruct core, w; split; reflexivity.
  - apply Forall_cons in Hok as [Hs Hl].
    destruct (Process s (env w)) as [r x] eqn:Hp.
    assert (r = None) by (specialize (Hs (env w)); rewrite Hp in Hs; exact Hs).
    subst r. rewrite (run_loop_cons_ok s l core w x Hp).
    destruct (IH Hl {| services := services core; internal := None;
                       state := state core |}
                {| env := fold_left (fun x n => handle n x) (Notifications x).1
                            (Notifications x).2;
                   log := (log w ++ [Called s HProcess None])
                          ++ map Handled (Notifications x).1 |})
      as (x' & new & Hrun & Hcalls).
    exists x', ([Called s HProcess None] ++ map Handled (Notifications x).1 ++ new).
    split.
    + rewrite Hrun. cbn [log services internal state]. rewrite <- !app_assoc.
      destruct l; reflexivity.
    + rewrite !calls_of_app, calls_of_Handled, Hcalls. reflexivity.
Qed.

Lemma run_loop_first_failure pre s post e :
  Forall (fun s' => forall x, (Process s' x).1 = None) pre ->
  (forall x, (Process s x).1 = Some e) ->
  forall core w, exists x new,
    run_loop Notifications handle (pre ++ s :: post) core w
    = (Some (Some e),
       {| services := services core; internal := Some e; state := state core |},
       {| env := x; log := log w ++ new |})
    /\ calls_of HProcess new = map (fun s' => (s', None)) pre ++ [(s, Some e)].
Proof.
  induction pre as [|s' pre IH]; intros Hok Hfail core w.
  - destruct (Process s (env w)) as [r x] eqn:Hp.
    assert (r = Some e) by (specialize (Hfail (env w)); rewrite Hp in Hfail; exact Hfail).
    subst r. exists x, [Called s HProcess (Some e)].
    cbn [app]. rewrite (run_loop_cons_fail s post core w x e Hp). split; reflexivity.
  - apply Forall_cons in Hok as [Hs Hl].
    destruct (Process s' (env w)) as [r x] eqn:Hp.
    assert (r = None) by (specialize (Hs (env w)); rewrite Hp in Hs; exact Hs).
    subst r. cbn [app]. rewrite (run_loop_cons_ok s' _ core w x Hp).
    destruct (IH Hl Hfail {| services := services core; internal := None;
                             state := state core |}
                {| env := fold_left (fun x n => handle n x) (Notifications x).1
                            (Notifications x).2;
                   log := (log w ++ [Called s' HProcess None])
                          ++ map Handled (Notifications x).1 |})
      as (x' & new & Hrun & Hcalls).
    exists x', ([Called s' HProcess None] ++ map Handled (Notifications x).1 ++ new).
    split.
    + rewrite Hrun. cbn [log]. rewrite <- !app_assoc. reflexivity.
    + rewrite !calls_of_app, calls_of_Handled, Hcalls. reflexivity.
Qed.

(** C6. In a service list whose first [k-1] services have a [Process]
    that returns nil and whose [k]-th service has a [Process] that returns
    the error [e], [Run] calls [Process] once on each of the first [k]
    services, in the order of the list, and on no later one; it returns
    [e] and leaves the state at [Working].  When the [Process] of every
    service returns nil, [Run] calls [Process] once on each, puts the state
    back to [Idle] and returns nil. *)
Theorem Run_stops_at_first_failing_Process core w :
  (forall pre s post e,
      services core = pre ++ s :: post ->
      Forall (fun s' => forall x, (Process s' x).1 = None) pre ->
      (forall x, (Process s x).1 = Some e) ->
      exists x new,
        Run Notifications handle core w
        = (Some e,
           {| services := services core; internal := Some e;
              state := Working States |},
           {| env := x; log := log w ++ new |})
        /\ calls_of HProcess new = map (fun s' => (s', None)) pre ++ [(s, Some e)])
  /\ (Forall (fun s' => forall x, (Process s' x).1 = None) (services core) ->
      exists x new,
        Run Notifications handle core w
        = (None,
           {| services := services core;
              internal := match services core with
                          | [] => internal core
                          | _ :: _ => None
                          end;
              state := Idle States |},
           {| env := x; log := log w ++ new |})
        /\ calls_of HProcess new = map (fun s' => (s', None)) (services core)).
Proof.
  split.
  - intros pre s post e Hsplit Hok Hfail.
    destruct (run_loop_first_failure pre s post e Hok Hfail
                (set_state (Working States) core) w) as (x & new & Hrun & Hcalls).
    exists x, new. split; [|exact Hcalls].
    rewrite <- Hsplit in Hrun.
    unfold Run. cbn [services set_state]. rewrite Hrun. reflexivity.
  - intros Hok.
    destruct (run_loop_all_ok (services core) Hok
                (set_state (Working States) core) w) as (x & new & Hrun & Hcalls).
    exists x, new. split; [|exact Hcalls].
    unfold Run. cbn [services set_state]. rewrite Hrun. reflexivity.
Qed.

(** *** Stop *)

Lemma stop_loop_cons_fail s l core w x e :
  Stop_ s (env w) = (Some e, x) ->
  stop_loop (Notification := Notification) (s :: l) core w
  = stop_loop l
      {| services := services core; internal := Some e; state := state core |}
      {| env := x; log := log w ++ [Called s HStop (Some e)] |}.
Proof. intros H. cbn [stop_loop]. unfold call. rewrite H. reflexivity. Qed.

Lemma stop_loop_cons_ok s l core w x :
  Stop_ s (env w) = (None, x) ->
  stop_loop (s :: l) core w
  = (Some None,
     {| services := services core; internal := None; state := state core |},
     {| env := x; log := log w ++ [Called s HStop None] |}).
Proof. intros H. cbn [stop_loop]. unfold call. rewrite H. reflexivity. Qed.

Lemma last_cons_default {A} (xs : list A) : forall d x : A,
  default d (last (x :: xs)) = default x (last xs).
Proof.
  induction xs as [|a xs IH]; intros d x; [reflexivity|].
  change (last (x :: a :: xs)) with (last (a :: xs)).
  rewrite (IH d a), (IH x a). reflexivity.
Qed.

(** Over services whose [Stop] returns an error the loop goes on; it has
    recorded the error of the last of them. *)
Lemma stop_loop_failures pre :
  Forall (fun s' => forall x, (Stop_ s' x).1 <> None) pre ->
  forall post core w, exists x new errs,
    length errs = length pre
    /\ calls_of HStop new = zip pre (Some <$> errs)
    /\ stop_loop (pre ++ post) core w
       = stop_loop post
           {| services := services core;
              internal := default (internal core) (last (Some <$> errs));
              state := state core |}
           {| env := x; log := log w ++ new |}.
Proof.
  induction pre as [|s pre IH]; intros Hfail post core w.
  - exists (env w), [], []. cbn. rewrite app_nil_r.
    destruct core, w; repeat split.
  - apply Forall_cons in Hfail as [Hs Hl].
    destruct (Stop_ s (env w)) as [r x] eqn:Hp.
    destruct r as [e|]; [|exfalso; apply (Hs (env w)); rewrite Hp; reflexivity].
    cbn [app]. rewrite (stop_loop_cons_fail s _ core w x e Hp).
    destruct (IH Hl post
                {| services := services core; internal := Some e; state := state core |}
                {| env := x; log := log w ++ [Called s HStop (Some e)] |})
      as (x' & new & errs & Hlen & Hcalls & Hrun).
    exists x', ([Called s HStop (Some e)] ++ new), (e :: errs).
    split; [cbn; rewrite Hlen; reflexivity|]. split.
    + rewrite calls_of_app, Hcalls. reflexivity.
    + rewrite Hrun. cbn [services internal state log fmap list_fmap].
      change (Some e :: list_fmap _ _ Some errs) with (Some e :: (Some <$> errs)).
      rewrite last_cons_default, <- app_assoc. reflexivity.
Qed.

(** C2.  All services before [s] have a [Stop] that returns an error and
    [s] has a [Stop] that returns nil: [Stop] calls the hook of each
    service up to [s], once and in the order of the list, and of none
    after [s]; it returns at once, with the error of [s], which is nil
    since [s] reported success, and leaves the state as it was.  When the
    [Stop] of every service returns an error, [Stop] goes on from each to
    the next, calls them all, sets the state to [Stopped] and returns
    nil. *)
Theorem Stop_aborts_at_first_success core w :
  (forall pre s post,
      services core = pre ++ s :: post ->
      Forall (fun s' => forall x, (Stop_ s' x).1 <> None) pre ->
      (forall x, (Stop_ s x).1 = None) ->
      exists x new errs,
        length errs = length pre
        /\ calls_of HStop new = zip pre (Some <$> errs) ++ [(s, None)]
        /\ Stop (Notification := Notification) core w
           = (None,
              {| services := services core; internal := None;
                 state := state core |},
              {| env := x; log := log w ++ new |}))
  /\ (Forall (fun s' => forall x, (Stop_ s' x).1 <> None) (services core) ->
      exists x new errs,
        length errs = length (services core)
        /\ calls_of HStop new = zip (services core) (Some <$> errs)
        /\ Stop (Notification := Notification) core w
           = (None,
              {| services := services core;
                 internal := default (internal core) (last (Some <$> errs));
                 state := Stopped States |},
              {| env := x; log := log w ++ new |})).
Proof.
  split.
  - intros pre s post Hsplit Hfail Hok.
    destruct (stop_loop_failures pre Hfail (s :: post) core w)
      as (x & new & errs & Hlen & Hcalls & Hrun).
    destruct (Stop_ s x) as [r x'] eqn:Hp.
    assert (r = None) by (specialize (Hok x); rewrite Hp in Hok; exact Hok).
    subst r.
    exists x', (new ++ [Called s HStop None]), errs.
    split; [exact Hlen|]. split.
    + rewrite calls_of_app, Hcalls. reflexivity.
    + rewrite <- Hsplit in Hrun. unfold Stop. rewrite Hrun.
      rewrite (stop_loop_cons_ok s post _ {| env := x; log := log w ++ new |} x' Hp).
      cbn [services internal state log].
      rewrite <- app_assoc. reflexivity.
  - intros Hfail.
    destruct (stop_loop_failures (services core) Hfail [] core w)
      as (x & new & errs & Hlen & Hcalls & Hrun).
    exists x, new, errs. split; [exact Hlen|]. split; [exact Hcalls|].
    unfold Stop. rewrite app_nil_r in Hrun. rewrite Hrun. reflexivity.
Qed.

(** *** What the log tells, whatever the hooks do *)

(** The hooks may answer differently from one state of the collaborators
    to another.  The log of [Run] always reads: [Process] was called on an
    initial part of the list, once per service and in order; every call
    but the last returned nil; and either all services were called and the
    loop ran to its end, or the last call returned an error [e], which is
    what the loop returns, and no further service was called. *)
Lemma run_loop_log l : forall core w, exists x new,
  (run_loop Notifications handle l core w).2 = {| env := x; log := log w ++ new |}
  /\ (((run_loop Notifications handle l core w).1
       = (None,
          {| services := services core;
             internal := match l with [] => internal core | _ :: _ => None end;
             state := state core |})
       /\ calls_of HProcess new = map (fun s => (s, None)) l)
      \/ exists pre s post e,
           l = pre ++ s :: post
           /\ (run_loop Notifications handle l core w).1
              = (Some (Some e),
                 {| services := services core; internal := Some e;
                    state := state core |})
           /\ calls_of HProcess new
              = map (fun s' => (s', None)) pre ++ [(s, Some e)]).
Proof.
  induction l as [|s l IH]; intros core w.
  - exists (env w), []. cbn. rewrite app_nil_r. destruct core, w.
    split; [reflexivity|]. left. split; reflexivity.
  - destruct (Process s (env w)) as [[e|] x] eqn:Hp.
    + rewrite (run_loop_cons_fail s l core w x e Hp).
      exists x, [Called s HProcess (Some e)]. split; [reflexivity|].
      right. exists [], s, l, e. repeat split.
    + rewrite (run_loop_cons_ok s l core w x Hp).
      destruct (IH {| services := services core; internal := None;
                      state := state core |}
                  {| env := fold_left (fun x n => handle n x) (Notifications x).1
                              (Notifications x).2;
                     log := (log w ++ [Called s HProcess None])
                            ++ map Handled (Notifications x).1 |})
        as (x' & new & Hw & Hcases).
      exists x', ([Called s HProcess None] ++ map Handled (Notifications x).1 ++ new).
      split; [rewrite Hw; cbn [log]; rewrite <- !app_assoc; reflexivity|].
      rewrite !calls_of_app, calls_of_Handled.
      cbn [services internal state] in Hcases.
      destruct Hcases as [[Hr Hcalls]|(pre & s' & post & e & Hl & Hr & Hcalls)].
      * left. split; [rewrite Hr; destruct l; reflexivity|].
        rewrite Hcalls. reflexivity.
      * right. exists (s :: pre), s', post, e. split; [rewrite Hl; reflexivity|].
        split; [exact Hr|]. rewrite Hcalls. reflexivity.
Qed.

Lemma Run_log core w : exists x new,
  (Run Notifications handle core w).2 = {| env := x; log := log w ++ new |}
  /\ (((Run Notifications handle core w).1
       = (None, {| services := services core;
                   internal := match services core with
                               | [] => internal core
                               | _ :: _ => None
                               end;
                   state := Idle States |})
       /\ calls_of HProcess new = map (fun s => (s, None)) (services core))
      \/ exists pre s post e,
           services core = pre ++ s :: post
           /\ (Run Notifications handle core w).1
              = (Some e, {| services := services core; internal := Some e;
                            state := Working States |})
           /\ calls_of HProcess new
              = map (fun s' => (s', None)) pre ++ [(s, Some e)]).
Proof.
  destruct (run_loop_log (services core) (set_state (Working States) core) w)
    as (x & new & Hw & Hcases).
  exists x, new. unfold Run. cbn [services set_state].
  destruct (run_loop Notifications handle (services core)
              (set_state (Working States) core) w) as [[r c] w'].
  cbn [fst snd services internal state set_state] in *. subst w'.
  destruct Hcases as [[Hr Hcalls]|(pre & s & post & e & Hl & Hr & Hcalls)].
  - injection Hr as -> ->. split; [reflexivity|]. left. split; [reflexivity|exact Hcalls].
  - injection Hr as -> ->. split; [reflexivity|]. right.
    exists pre, s, post, e. repeat split; assumption.
Qed.

(** The log of [Stop] always reads: the hook was called on an initial part
    of the list, once per service and in order; every call but the last
    returned an error; and either all services were called, the state is
    [Stopped] and nil is returned, or the last call returned nil, and then
    what is returned is the nil that [core.internal] holds. *)
Lemma stop_loop_log l : forall core w, exists x new pre rest errs,
  l = pre ++ rest
  /\ length errs = length pre
  /\ (stop_loop l core w).2 = {| env := x; log := log w ++ new |}
  /\ match rest with
     | [] =>
         (stop_loop (Notification := Notification) l core w).1
         = (None, {| services := services core;
                     internal := default (internal core) (last (Some <$> errs));
                     state := state core |})
         /\ calls_of HStop new = zip pre (Some <$> errs)
     | s :: _ =>
         (stop_loop (Notification := Notification) l core w).1
         = (Some None,
            {| services := services core; internal := None;
               state := state core |})
         /\ calls_of HStop new = zip pre (Some <$> errs) ++ [(s, None)]
     end.
Proof.
  induction l as [|s l IH]; intros core w.
  - exists (env w), [], [], [], []. cbn. rewrite app_nil_r.
    destruct core, w. repeat split.
  - destruct (Stop_ s (env w)) as [[e|] x] eqn:Hp.
    + rewrite (stop_loop_cons_fail s l core w x e Hp).
      destruct (IH {| services := services core; internal := Some e;
                      state := state core |}
                  {| env := x; log := log w ++ [Called s HStop (Some e)] |})
        as (x' & new & pre & rest & errs & Hl & Hlen & Hw & Hrest).
      exists x', ([Called s HStop (Some e)] ++ new), (s :: pre), rest, (e :: errs).
      split; [rewrite Hl; reflexivity|].
      split; [cbn; rewrite Hlen; reflexivity|].
      split; [rewrite Hw; cbn [log]; rewrite <- app_assoc; reflexivity|].
      cbn [services internal state] in Hrest.
      change (Some <$> e :: errs) with (Some e :: (Some <$> errs)).
      rewrite last_cons_default, calls_of_app.
      destruct rest as [|s' rest']; destruct Hrest as [Hr Hcalls];
        (split; [exact Hr | rewrite Hcalls; reflexivity]).
    + rewrite (stop_loop_cons_ok s l core w x Hp).
      exists x, [Called s HStop None], [], (s :: l), [].
      cbn. repeat split.
Qed.

(** *** State *)

Lemma configure_loop_state props l : forall core w,
  state (configure_loop (Notification := Notification) props l core w).1.2
  = state core.
Proof.
  induction l as [|s l IH]; intros core w; [reflexivity|].
  cbn [configure_loop]. unfold call.
  destruct (Start s (env w)) as [r x]. cbn [env log].
  destruct r as [e|]; cbn [checkIf negb]; [reflexivity|].
  destruct (Configure_ s props x) as [r x']. cbn [env log].
  destruct r as [e|]; cbn [checkIf negb]; [reflexivity|].
  rewrite IH. reflexivity.
Qed.

Lemma stop_loop_state l : forall core w,
  state (stop_loop (Notification := Notification) l core w).1.2 = state core.
Proof.
  induction l as [|s l IH]; intros core w; [reflexivity|].
  cbn [stop_loop]. unfold call.
  destruct (Stop_ s (env w)) as [r x]. cbn [env log].
  destruct r as [e|]; cbn [checkIf]; [|reflexivity].
  rewrite IH. reflexivity.
Qed.

(** A [Configure] that returns an error has not assigned [core.state]. *)
Lemma Configure_error_state svcs props core w :
  (Configure IsLoaded NewNotificationQueue (Notification := Notification)
     svcs props core w).1.1 <> None ->
  state (Configure IsLoaded NewNotificationQueue (Notification := Notification)
           svcs props core w).1.2 = state core.
Proof.
  unfold Configure. destruct (IsLoaded props); cbn [negb]; [|reflexivity].
  match goal with |- context [configure_loop ?p ?l ?c ?w'] =>
    pose proof (configure_loop_state p l c w') as Hst;
    destruct (configure_loop p l c w') as [[r c'] w''] end.
  cbn in Hst. destruct r as [r|]; cbn; [intros _; exact Hst | congruence].
Qed.

(** A [Stop] that returns an error has not assigned [core.state]. *)
Lemma Stop_error_state core w :
  (Stop (Notification := Notification) core w).1.1 <> None ->
  state (Stop (Notification := Notification) core w).1.2 = state core.
Proof.
  unfold Stop.
  pose proof (stop_loop_state (services core) core w) as Hst.
  destruct (stop_loop (services core) core w) as [[r c'] w''].
  cbn in Hst. destruct r as [r|]; cbn; [intros _; exact Hst | congruence].
Qed.

Lemma exec_errors_keep_state ops : forall core w,
  Forall (fun o => is_run o = false) ops ->
  Forall (fun r => r <> None)
    (exec IsLoaded NewNotificationQueue Notifications handle ops core w).1.1 ->
  state (exec IsLoaded NewNotificationQueue Notifications handle ops core w).1.2
  = state core.
Proof.
  induction ops as [|o ops IH]; intros core w Hops Hres; [reflexivity|].
  apply Forall_cons in Hops as [Ho Hops].
  cbn [exec] in *.
  destruct (step IsLoaded NewNotificationQueue Notifications handle o core w)
    as [[r c1] w1] eqn:Hstep.
  specialize (IH c1 w1 Hops).
  destruct (exec IsLoaded NewNotificationQueue Notifications handle ops c1 w1)
    as [[rs c2] w2].
  cbn in *. apply Forall_cons in Hres as [Hr Hrs].
  rewrite (IH Hrs).
  destruct o as [svcs props| |]; cbn [step is_run] in *.
  - pose proof (Configure_error_state svcs props core w) as H.
    rewrite Hstep in H. exact (H Hr).
  - discriminate Ho.
  - pose proof (Stop_error_state core w) as H.
    rewrite Hstep in H. exact (H Hr).
Qed.

(** C10, as the code has it.  Starting from [Core{}], as long as [Run] has
    not been called and every [Configure] and [Stop] called so far has
    returned an error, [State()] returns the zero value, and that value is
    none of [Started], [Idle], [Working], [Stopped], [Panic]. *)
Theorem State_zero_before_Run_and_success ops w :
  Forall (fun o => is_run o = false) ops ->
  Forall (fun r => r <> None)
    (exec IsLoaded NewNotificationQueue Notifications handle ops zero w).1.1 ->
  State (exec IsLoaded NewNotificationQueue Notifications handle ops zero w).1.2
  = 0%Z
  /\ 0%Z <> Started States /\ 0%Z <> Idle States /\ 0%Z <> Working States
  /\ 0%Z <> Stopped States /\ 0%Z <> Panic States.
Proof.
  intros Hops Hres. unfold State.
  rewrite (exec_errors_keep_state ops zero w Hops Hres).
  repeat split; discriminate.
Qed.

End KernelFacts.

(** *** On concrete inputs *)

Import KernelExamples.

Lemma Run_stops_at_first_failing_Process_witness :
  services (configured [steady; grumpy; steady]) = [steady] ++ grumpy :: [steady]
  /\ Forall (fun s' => forall x, (Process s' x).1 = None) [steady]
  /\ (forall x, (Process grumpy x).1 = Some "process failed"%string)
  /\ (Run Notifications handle (configured [steady; grumpy; steady]) kw0).1.1
     = Some "process failed"%string
  /\ state (Run Notifications handle (configured [steady; grumpy; steady]) kw0).1.2
     = Working States.
Proof.
  assert (H1 : services (configured [steady; grumpy; steady])
               = [steady] ++ grumpy :: [steady]) by reflexivity.
  assert (H2 : Forall (fun s' : Service nat bool =>
                         forall x, (Process s' x).1 = None) [steady])
    by (repeat constructor).
  assert (H3 : forall x, (Process grumpy x).1 = Some "process failed"%string)
    by (intros x; reflexivity).
  split; [exact H1|]. split; [exact H2|]. split; [exact H3|].
  destruct (proj1 (Run_stops_at_first_failing_Process nat bool nat
                     Notifications handle
                     (configured [steady; grumpy; steady]) kw0)
              [steady] grumpy [steady] "process failed"%string H1 H2 H3)
    as (x & new & Hrun & _).
  rewrite Hrun. split; reflexivity.
Defined.

Lemma Stop_aborts_at_first_success_witness :
  services (configured [grumpy; steady; steady]) = [grumpy] ++ steady :: [steady]
  /\ Forall (fun s' => forall x, (Stop_ s' x).1 <> None) [grumpy]
  /\ (forall x, (Stop_ steady x).1 = None)
  /\ (Stop (Notification := nat) (configured [grumpy; steady; steady]) kw0).1.1
     = None
  /\ state (Stop (Notification := nat) (configured [grumpy; steady; steady]) kw0).1.2
     = Idle States.
Proof.
  assert (H1 : services (configured [grumpy; steady; steady])
               = [grumpy] ++ steady :: [steady]) by reflexivity.
  assert (H2 : Forall (fun s' : Service nat bool =>
                         forall x, (Stop_ s' x).1 <> None) [grumpy])
    by (repeat constructor; intros x; discriminate).
  assert (H3 : forall x, (Stop_ steady x).1 = None) by (intros x; reflexivity).
  split; [exact H1|]. split; [exact H2|]. split; [exact H3|].
  destruct (proj1 (Stop_aborts_at_first_success nat bool nat
                     (configured [grumpy; steady; steady]) kw0)
              [grumpy] steady [steady] H1 H2 H3)
    as (x & new & errs & _ & _ & Hstop).
  rewrite Hstop. split; reflexivity.
Defined.

(** C10, as the claim has it, fails.  [Configure] fails in [Start] after
    it has stored the service list; [Run] then sets [Working] and fails in
    [Process].  No call has succeeded and [State()] is [Working]. *)
Lemma State_is_Working_after_failed_Run :
  (exec IsLoaded NewNotificationQueue Notifications handle
     [OpConfigure [unstartable] true; OpRun] zero kw0).1.1
  = [Some "start failed"%string; Some "process failed"%string]
  /\ State (exec IsLoaded NewNotificationQueue Notifications handle
              [OpConfigure [unstartable] true; OpRun] zero kw0).1.2
     = Working States
  /\ State (exec IsLoaded NewNotificationQueue Notifications handle
              [OpConfigure [unstartable] true; OpRun] zero kw0).1.2
     <> 0%Z.
Proof. vm_compute. repeat split. discriminate. Qed.

Lemma State_zero_before_Run_and_success_witness :
  Forall (fun o => is_run o = false)
    [OpConfigure [unstartable] true; OpConfigure [steady] false]
  /\ (exec IsLoaded NewNotificationQueue Notifications handle
        [OpConfigure [unstartable] true; OpConfigure [steady] false] zero kw0).1.1
     = [Some "start failed"%string; Some "properties not loaded"%string]
  /\ State (exec IsLoaded NewNotificationQueue Notifications handle
              [OpConfigure [unstartable] true; OpConfigure [steady] false]
              zero kw0).1.2
     = 0%Z.
Proof.
  assert (H1 : Forall (fun o => is_run o = false)
                 [OpConfigure [unstartable] true; OpConfigure [steady] false])
    by (repeat constructor).
  assert (H2 : (exec IsLoaded NewNotificationQueue Notifications handle
                  [OpConfigure [unstartable] true; OpConfigure [steady] false]
                  zero kw0).1.1
               = [Some "start failed"%string; Some "properties not loaded"%string])
    by (vm_compute; reflexivity).
  split; [exact H1|]. split; [exact H2|].
  refine (proj1 (State_zero_before_Run_and_success nat bool nat
                   IsLoaded NewNotificationQueue Notifications handle
                   [OpConfigure [unstartable] true; OpConfigure [steady] false]
                   kw0 H1 _)).
  rewrite H2. repeat constructor; discriminate.
Defined.

End KernelFacts.

(** ** Notification routing *)

Module NetworkFacts.
Import Network.

Section NetworkFacts.
Variables CommandObject DataObject ErrorObject Other Conn : Type.
Variables EntityNames_Services_Module EntityNames_Core : string.
Variable emit_result :
  string -> message CommandObject DataObject ErrorObject -> Conn -> bool * Conn.

Implicit Types n : Notification CommandObject DataObject ErrorObject Other.
Implicit Types w : World CommandObject DataObject ErrorObject Conn.
Implicit Types t : list (effect CommandObject DataObject ErrorObject).

Local Abbreviation handle :=
  (handle EntityNames_Services_Module EntityNames_Core emit_result).
Local Abbreviation defaultNotificationHandler :=
  (defaultNotificationHandler emit_result).

Lemma emits_app t1 t2 : emits (t1 ++ t2) = emits t1 ++ emits t2.
Proof. unfold emits. apply flat_map_app. Qed.

Lemma warnings_app t1 t2 : warnings (t1 ++ t2) = warnings t1 ++ warnings t2.
Proof. unfold warnings. apply flat_map_app. Qed.

(** A notification from the module entity or from the core goes to
    [defaultNotificationHandler], after one debug line. *)
Lemma handle_recognized n w :
  From n = EntityNames_Services_Module \/ From n = EntityNames_Core ->
  handle n w
  = defaultNotificationHandler n
      {| conn := conn w; trace := trace w ++ [Log Debug DebugNotificationHandled []] |}.
Proof.
  intros H. unfold Network.handle, logger.
  destruct (String.eqb_spec (From n) EntityNames_Services_Module) as [|Hm];
    [reflexivity|].
  destruct H as [H|H]; [contradiction|].
  apply String.eqb_eq in H. rewrite H. reflexivity.
Qed.

(** C7. A notification whose source is the module entity or the core is
    routed by the type of its content: a [CommandObject] is emitted on
    "Command", a [DataObject] on "Data", an [ErrorObject] on "Error", by
    one call of [emit] each.  Any other content makes no call of [emit]
    and one warning, "unknown content type", and the handler returns nil. *)
Theorem handle_routes_by_content_type n w :
  From n = EntityNames_Services_Module \/ From n = EntityNames_Core ->
  exists new,
    trace (handle n w).2 = trace w ++ new
    /\ match Content n with
       | PtrCommandObject o =>
           emits new = [("Command"%string, MCommand o)] /\ warnings new = []
       | PtrDataObject o =>
           emits new = [("Data"%string, MData o)] /\ warnings new = []
       | PtrErrorObject o =>
           emits new = [("Error"%string, MError o)] /\ warnings new = []
       | OtherContent _ =>
           emits new = []
           /\ warnings new = [(UnknownContentType, [])]
           /\ (handle n w).1 = None
       end.
Proof.
  intros H. rewrite (handle_recognized n w H).
  unfold Network.defaultNotificationHandler, emit, logger.
  destruct (Content n) as [o|o|o|v]; cbn [conn trace].
  - destruct (emit_result _ _ _) as [[|] c];
      (eexists; split; [cbn; rewrite <- app_assoc; reflexivity|]);
      split; reflexivity.
  - destruct (emit_result _ _ _) as [[|] c];
      (eexists; split; [cbn; rewrite <- app_assoc; reflexivity|]);
      split; reflexivity.
  - destruct (emit_result _ _ _) as [[|] c];
      (eexists; split; [cbn; rewrite <- app_assoc; reflexivity|]);
      split; reflexivity.
  - eexists. split; [cbn; rewrite <- app_assoc; reflexivity|].
    repeat split.
Qed.

(** C8. A notification whose source is neither the module entity nor the
    core is logged, by one warning "unhandled notification origin" that
    names the source, and dropped: [emit] is not called, the connection
    is not touched and the handler returns nil. *)
Theorem handle_drops_unrecognized_source n w :
  From n <> EntityNames_Services_Module ->
  From n <> EntityNames_Core ->
  handle n w
  = (None,
     {| conn := conn w;
        trace := trace w ++ [Log Debug DebugNotificationHandled [];
                             Log Warn UnhandledNotificationOrigin [From n]] |})
  /\ emits [Log (CommandObject := CommandObject) (DataObject := DataObject)
              (ErrorObject := ErrorObject) Debug DebugNotificationHandled [];
            Log Warn UnhandledNotificationOrigin [From n]] = []
  /\ warnings [Log (CommandObject := CommandObject) (DataObject := DataObject)
                 (ErrorObject := ErrorObject) Debug DebugNotificationHandled [];
               Log Warn UnhandledNotificationOrigin [From n]]
     = [(UnhandledNotificationOrigin, [From n])].
Proof.
  intros Hm Hc. unfold Network.handle, logger.
  apply String.eqb_neq in Hm, Hc. rewrite Hm, Hc. cbn.
  rewrite <- app_assoc. repeat split.
Qed.

End NetworkFacts.

(** *** On concrete inputs *)

Import NetworkExamples.

Lemma handle_routes_by_content_type_witness :
  (From data_from_core = module_name \/ From data_from_core = core_name)
  /\ emits (trace (handle module_name core_name emit_result data_from_core nw0).2)
     = [("Data"%string, MData "42"%string)]
  /\ (From number_from_module = module_name \/ From number_from_module = core_name)
  /\ emits (trace (handle module_name core_name emit_result number_from_module nw0).2)
     = []
  /\ warnings (trace (handle module_name core_name emit_result number_from_module nw0).2)
     = [(UnknownContentType, [])].
Proof.
  assert (H1 : From data_from_core = module_name \/ From data_from_core = core_name)
    by (right; reflexivity).
  assert (H2 : From number_from_module = module_name
               \/ From number_from_module = core_name)
    by (left; reflexivity).
  split; [exact H1|].
  destruct (handle_routes_by_content_type string string string nat unit
              module_name core_name emit_result data_from_core nw0 H1)
    as (new1 & Ht1 & He1 & _).
  destruct (handle_routes_by_content_type string string string nat unit
              module_name core_name emit_result number_from_module nw0 H2)
    as (new2 & Ht2 & He2 & Hw2 & _).
  rewrite Ht1, Ht2. cbn [trace nw0 app].
  split; [exact He1|]. split; [exact H2|]. split; [exact He2 | exact Hw2].
Defined.

Lemma handle_drops_unrecognized_source_witness :
  From data_from_stranger <> module_name
  /\ From data_from_stranger <> core_name
  /\ handle module_name core_name emit_result data_from_stranger nw0
     = (None,
        {| conn := tt;
           trace := [Log Debug DebugNotificationHandled [];
                     Log Warn UnhandledNotificationOrigin ["stranger"%string]] |}).
Proof.
  assert (H1 : From data_from_stranger <> module_name) by discriminate.
  assert (H2 : From data_from_stranger <> core_name) by discriminate.
  split; [exact H1|]. split; [exact H2|].
  exact (proj1 (handle_drops_unrecognized_source string string string nat unit
                  module_name core_name emit_result data_from_stranger nw0 H1 H2)).
Defined.

End NetworkFacts.

(** * Further properties *)

(** ** The event bus: answers and effects of [Unsubscribe] *)

Module EventMore.
Import Event EventHistory EventFacts.

Section EventMore.
Variables Payload ReplyHandler : Type.
Implicit Types w : World Payload ReplyHandler.
Implicit Types sub pre post : list subscriber.
Implicit Types handler : EventConsumer.

Lemma range_find_None wanted : forall sub i,
  range_find i wanted sub = None <-> Forall (fun s => id s <> wanted) sub.
Proof.
  induction sub as [|s sub IH]; intros i; cbn.
  - split; [constructor | reflexivity].
  - destruct (String.eqb_spec (id s) wanted) as [Heq|Hne].
    + split; [discriminate|]. intros H. apply Forall_cons in H as [H _]. contradiction.
    + rewrite IH. split; [intros H; constructor; assumption|].
      intros H. apply Forall_cons in H as [_ H]. exact H.
Qed.

Lemma range_find_first wanted sbcr post : forall pre i,
  Forall (fun s => id s <> wanted) pre ->
  id sbcr = wanted ->
  range_find i wanted (pre ++ sbcr :: post) = Some (i + length pre, sbcr).
Proof.
  induction pre as [|s pre IH]; intros i Hpre Hid; cbn.
  - apply String.eqb_eq in Hid. rewrite Hid, Nat.add_0_r. reflexivity.
  - apply Forall_cons in Hpre as [Hs Hpre'].
    apply String.eqb_neq in Hs. rewrite Hs, IH by assumption.
    do 2 f_equal. lia.
Qed.

(** The first registration with the wanted id splits the list. *)
Lemma range_find_split wanted : forall sub i n sbcr,
  range_find i wanted sub = Some (n, sbcr) ->
  exists pre post,
    sub = pre ++ sbcr :: post /\ n = i + length pre
    /\ Forall (fun s => id s <> wanted) pre /\ id sbcr = wanted.
Proof.
  induction sub as [|s sub IH]; intros i n sbcr H; cbn in H; [discriminate|].
  destruct (String.eqb_spec (id s) wanted) as [Heq|Hne].
  - injection H as <- <-. exists [], sub. cbn. rewrite Nat.add_0_r.
    repeat split; [constructor | exact Heq].
  - apply IH in H as (pre & post & -> & -> & Hpre & Hid).
    exists (s :: pre), post. cbn. repeat split; [lia | constructor; assumption | exact Hid].
Qed.

Lemma drop_past_prefix {A} (x : A) (post : list A) : forall pre : list A,
  drop (S (length pre)) (pre ++ x :: post) = post.
Proof. induction pre as [|a pre IH]; [reflexivity | exact IH]. Qed.

Lemma drop_length_cons {A} : forall (l : list A) (x : A),
  drop (length l) (x :: l) = [default x (last l)].
Proof.
  induction l as [|a l IH]; intros x; [reflexivity|].
  cbn [length drop]. rewrite IH. f_equal. symmetry.
  apply KernelFacts.last_cons_default.
Qed.

(** [append(sub[:i], sub[i+1:]...)] on [pre ++ x :: post] with [i] the
    place of [x]: the new header reads [pre ++ post]; the old one reads
    that, followed by the element that was last. *)
Lemma delete_at_middle {A} (x : A) (pre post : list A) :
  Slice.delete_at (length pre) (pre ++ x :: post)
  = (pre ++ post, pre ++ post ++ [default x (last post)]).
Proof.
  unfold Slice.delete_at, Slice.write_at.
  rewrite drop_past_prefix, take_app_length. f_equal. do 2 f_equal.
  rewrite drop_app_ge by lia.
  replace (length pre + length post - length pre) with (length post) by lia.
  apply drop_length_cons.
Qed.

(** X1. The three answers of [Unsubscribe].  It answers
    [ErrChannelNotFound] exactly when the table has no entry for the
    channel, [ErrChannelSubscriberNotFound] exactly when the entry holds no
    registration with the id of (channel, consumer), and nil exactly when
    it holds one.  When it answers an error the world is as it was: no
    token was cancelled and neither map was written. *)
Theorem Unsubscribe_answers channel handler w :
  let i := subscriber_id channel handler in
  let r := Unsubscribe channel handler w in
  (r.1 = Some ErrChannelNotFound <-> subscribers (bus w) !! channel = None)
  /\ (r.1 = Some ErrChannelSubscriberNotFound
      <-> exists sub, subscribers (bus w) !! channel = Some sub
                      /\ Forall (fun s => id s <> i) sub)
  /\ (r.1 = None
      <-> exists sub, subscribers (bus w) !! channel = Some sub
                      /\ Exists (fun s => id s = i) sub)
  /\ (r.1 <> None -> r.2 = w).
Proof.
  intros i r. subst r. unfold Unsubscribe, bind, get_bus, ret. cbv beta iota.
  destruct (subscribers (bus w) !! channel) as [sub|] eqn:Hsub; cbv zeta.
  - fold i. destruct (range_find 0 i sub) as [[n sbcr]|] eqn:Hfind.
    + apply range_find_split in Hfind as (pre & post & -> & -> & Hpre & Hid).
      unfold perform, put_bus. cbn.
      split; [split; discriminate|]. split; [split; [discriminate|]|].
      * intros (sub & [= <-] & Hall). exfalso.
        apply Forall_app in Hall as [_ Hall].
        apply Forall_cons in Hall as [Hs _]. contradiction.
      * split; [|intros H; contradiction].
        split; [|reflexivity]. intros _. eexists. split; [reflexivity|].
        apply Exists_app. right. constructor. exact Hid.
    + apply range_find_None in Hfind. cbn.
      split; [split; discriminate|]. split.
      * split; [|reflexivity]. intros _. exists sub. split; [reflexivity | exact Hfind].
      * split; [|reflexivity]. split; [discriminate|].
        intros (sub' & [= <-] & Hex). exfalso.
        apply Exists_exists in Hex as (s & Hin & Hs).
        rewrite Forall_forall in Hfind. exact (Hfind s Hin Hs).
  - cbn. split; [split; reflexivity|]. split.
    + split; [discriminate|]. intros (sub & H & _). discriminate H.
    + split; [|reflexivity]. split; [discriminate|].
      intros (sub & H & _). discriminate H.
Qed.

(** X2. What a successful [Unsubscribe] does.  The list of the channel is
    [pre ++ sbcr :: post], [sbcr] being the first registration with the id.
    The token of [sbcr] is cancelled once, the id leaves the known ids and
    nothing is allocated.  When [sbcr] was alone the entry of the channel
    is deleted.  Otherwise the entry stays and keeps its length: it reads
    [pre ++ post] followed by one more copy of the registration that was
    last, so unsubscribing the last of several leaves the list as it was. *)
Theorem Unsubscribe_success channel handler w pre sbcr post :
  subscribers (bus w) !! channel = Some (pre ++ sbcr :: post) ->
  Forall (fun s => id s <> subscriber_id channel handler) pre ->
  id sbcr = subscriber_id channel handler ->
  let r := Unsubscribe channel handler w in
  r.1 = None
  /\ trace r.2 = trace w ++ [Cancel (cancel sbcr)]
  /\ fresh r.2 = fresh w
  /\ ids (bus r.2) = ids (bus w) ∖ {[ subscriber_id channel handler ]}
  /\ subscribers (bus r.2) !! channel
     = match pre ++ post with
       | [] => None
       | _ :: _ => Some (pre ++ post ++ [default sbcr (last post)])
       end.
Proof.
  intros Hsub Hpre Hid r. subst r.
  rewrite (Unsubscribe_found Payload ReplyHandler channel handler w
             (pre ++ sbcr :: post) (length pre) sbcr Hsub)
    by (rewrite (range_find_first _ sbcr post pre 0 Hpre Hid); reflexivity).
  rewrite delete_at_middle. cbn [fst snd bus subscribers ids trace fresh].
  repeat split.
  destruct (pre ++ post) as [|a l] eqn:Hl; cbn [length Nat.eqb].
  - apply lookup_delete_eq.
  - apply lookup_insert_eq.
Qed.

(** X3. [Subscribe] then [Unsubscribe] of the same consumer on a channel
    that had no entry, the id being unknown: both answer nil and the bus
    is the one before the two calls.  What remains is the trace: the worker
    task was started and its own context was cancelled. *)
Theorem Subscribe_then_Unsubscribe channel handler w :
  subscribers (bus w) !! channel = None ->
  subscriber_id channel handler ∉ ids (bus w) ->
  let r1 := Subscribe channel handler w in
  let r2 := Unsubscribe channel handler r1.2 in
  r1.1 = None
  /\ r2.1 = None
  /\ bus r2.2 = bus w
  /\ trace r2.2
     = trace w ++ [GoWorker (fresh w) (S (fresh w)) handler; Cancel (S (fresh w))].
Proof.
  intros Hnone Hid r1 r2. subst r1 r2.
  rewrite Subscribe_eq. cbv zeta.
  destruct (decide _) as [|_]; [contradiction|]. cbn [fst snd].
  rewrite Hnone. cbn [default app].
  match goal with |- context [Unsubscribe _ _ ?w1] =>
    rewrite (Unsubscribe_found Payload ReplyHandler channel handler w1
               [ {| id := subscriber_id channel handler; ch := fresh w;
                    cancel := S (fresh w) |} ] 0
               {| id := subscriber_id channel handler; ch := fresh w;
                  cancel := S (fresh w) |})
      by (first [apply lookup_insert_eq
                | cbn; rewrite String.eqb_refl; reflexivity])
  end.
  cbn. split; [reflexivity|]. split; [reflexivity|]. split.
  - destruct (bus w) as [table known] eqn:Hb. cbn in *. f_equal.
    + rewrite delete_insert_eq, delete_insert_eq. apply delete_id, Hnone.
    + apply set_eq. intros x.
      rewrite elem_of_difference, elem_of_union, !elem_of_singleton.
      split; [intros [[->|Hx] Hn]; [contradiction Hn; reflexivity | exact Hx]|].
      intros Hx. split; [right; exact Hx | intros ->; contradiction].
  - rewrite <- app_assoc. reflexivity.
Qed.

(** X14. [Unsubscribe] then [Subscribe] of the same consumer on a
    channel whose list is [pre ++ sbcr :: post], [sbcr] being its first
    registration with the id: both answer nil, since the id was taken out
    of the known ids.  The new registration is appended to what
    [Unsubscribe] left in the table: to nothing when [sbcr] was alone, and
    otherwise to [pre ++ post] followed by the copy of the registration
    that was last.  So a consumer that was last of several is, after it
    subscribed again, in the list twice: once with its cancelled token and
    once with its new one. *)
Theorem Unsubscribe_then_Subscribe channel handler w pre sbcr post :
  subscribers (bus w) !! channel = Some (pre ++ sbcr :: post) ->
  Forall (fun s => id s <> subscriber_id channel handler) pre ->
  id sbcr = subscriber_id channel handler ->
  let r1 := Unsubscribe channel handler w in
  let r2 := Subscribe channel handler r1.2 in
  r1.1 = None
  /\ r2.1 = None
  /\ subscribers (bus r2.2) !! channel
     = Some (match pre ++ post with
             | [] => []
             | _ :: _ => pre ++ post ++ [default sbcr (last post)]
             end
             ++ [ {| id := subscriber_id channel handler; ch := fresh w;
                     cancel := S (fresh w) |} ]).
Proof.
  intros Hsub Hpre Hid r1 r2. subst r1 r2.
  rewrite (Unsubscribe_found Payload ReplyHandler channel handler w
             (pre ++ sbcr :: post) (length pre) sbcr Hsub)
    by (rewrite (range_find_first _ sbcr post pre 0 Hpre Hid); reflexivity).
  rewrite delete_at_middle. cbn [fst snd].
  rewrite Subscribe_eq. cbv zeta. cbn [bus ids subscribers fresh trace].
  destruct (decide _) as [Hin|_].
  - exfalso. apply elem_of_difference in Hin as [_ Hin].
    apply Hin, elem_of_singleton. reflexivity.
  - cbn [fst snd bus subscribers]. split; [reflexivity|]. split; [reflexivity|].
    rewrite lookup_insert_eq. f_equal. f_equal.
    destruct (pre ++ post) as [|a l] eqn:Hl; cbn [length Nat.eqb].
    + rewrite lookup_delete_eq. reflexivity.
    + rewrite lookup_insert_eq. reflexivity.
Qed.

(** *** Publish *)

Lemma registry_effects_app (t1 t2 : list (effect Payload ReplyHandler)) :
  registry_effects (t1 ++ t2) = registry_effects t1 ++ registry_effects t2.
Proof. unfold registry_effects. apply flat_map_app. Qed.

Lemma turns_registry_effects data (h : option ReplyHandler) sub : forall n,
  registry_effects (concat (imap (turn (Payload := Payload) data h n) sub)) = [].
Proof.
  induction sub as [|s sub IH]; intros n; [reflexivity|].
  cbn [imap concat]. rewrite registry_effects_app.
  rewrite (imap_ext _ (turn data h (S (S n))) sub)
    by (intros; apply turn_shift).
  rewrite IH. destruct h; reflexivity.
Qed.

Lemma turns_without_handler data sub : forall n,
  consume_calls (ReplyHandler := ReplyHandler)
    (concat (imap (turn (Payload := Payload) data None n) sub)) = [].
Proof.
  induction sub as [|s sub IH]; intros n; [reflexivity|].
  cbn [imap concat]. rewrite consume_calls_app.
  rewrite (imap_ext _ (turn data None (S (S n))) sub)
    by (intros; apply turn_shift).
  rewrite IH. reflexivity.
Qed.

(** X4. [Publish] never writes the bus, starts no worker and cancels no
    token, whatever it is given.  With or without a handler it starts one
    delivery per registration of the channel's list, in the order of the
    list (none when the channel has no entry); without a handler it calls
    nothing back. *)
Theorem Publish_leaves_bus channel (data : Payload) (handler : option ReplyHandler) w :
  bus (Publish channel data handler w).2 = bus w
  /\ exists new,
       trace (Publish channel data handler w).2 = trace w ++ new
       /\ registry_effects new = []
       /\ deliveries new
          = imap (fun k s => (ch s, event_at data (fresh w) k))
              (default [] (subscribers (bus w) !! channel))
       /\ (handler = None -> consume_calls new = []).
Proof.
  destruct (subscribers (bus w) !! channel) as [sub|] eqn:Hsub.
  - rewrite (Publish_found Payload ReplyHandler channel data handler sub w Hsub).
    split; [reflexivity|]. eexists. split; [reflexivity|].
    rewrite turns_registry_effects, deliveries_turns.
    repeat split. intros ->. apply turns_without_handler.
  - unfold Publish, bind, get_bus, perform, ret. cbv beta iota. rewrite Hsub.
    destruct handler as [h|]; cbn.
    + split; [reflexivity|]. eexists. split; [reflexivity|].
      repeat split. discriminate.
    + split; [reflexivity|]. exists []. rewrite app_nil_r. repeat split.
Qed.

(** *** Other channels, other ids *)

(** X5. [Subscribe] and [Unsubscribe] on one channel leave the list of
    every other channel as it was, and the only id they may add to or take
    from the known ids is the one of (channel, consumer). *)
Theorem other_channels_untouched channel handler w (c : string) (j : string) :
  c <> channel ->
  j <> subscriber_id channel handler ->
  subscribers (bus (Subscribe channel handler w).2) !! c = subscribers (bus w) !! c
  /\ subscribers (bus (Unsubscribe channel handler w).2) !! c = subscribers (bus w) !! c
  /\ (j ∈ ids (bus (Subscribe channel handler w).2) <-> j ∈ ids (bus w))
  /\ (j ∈ ids (bus (Unsubscribe channel handler w).2) <-> j ∈ ids (bus w)).
Proof.
  intros Hc Hj.
  assert (HS : subscribers (bus (Subscribe channel handler w).2) !! c
               = subscribers (bus w) !! c
               /\ (j ∈ ids (bus (Subscribe channel handler w).2) <-> j ∈ ids (bus w))).
  { rewrite Subscribe_eq. cbv zeta. destruct (decide _); cbn.
    - split; reflexivity.
    - rewrite lookup_insert_ne by congruence. split; [reflexivity|].
      rewrite elem_of_union, elem_of_singleton. tauto. }
  assert (HU : subscribers (bus (Unsubscribe channel handler w).2) !! c
               = subscribers (bus w) !! c
               /\ (j ∈ ids (bus (Unsubscribe channel handler w).2) <-> j ∈ ids (bus w))).
  { destruct (subscribers (bus w) !! channel) as [sub|] eqn:Hsub.
    - destruct (range_find 0 (subscriber_id channel handler) sub)
        as [[n sbcr]|] eqn:Hfind.
      + rewrite (Unsubscribe_found Payload ReplyHandler channel handler w sub n sbcr
                   Hsub Hfind).
        cbn [snd bus subscribers ids].
        split; [|rewrite elem_of_difference, elem_of_singleton; tauto].
        destruct (_ =? 0);
          rewrite ?lookup_delete_ne, lookup_insert_ne by congruence; reflexivity.
      + unfold Unsubscribe, bind, get_bus, ret. cbv beta iota.
        rewrite Hsub. cbv zeta. rewrite Hfind. split; reflexivity.
    - unfold Unsubscribe, bind, get_bus, ret. cbv beta iota.
      rewrite Hsub. split; reflexivity. }
  destruct HS as [HS1 HS2], HU as [HU1 HU2]. repeat split; tauto.
Qed.

(** *** What every history keeps *)

Lemma Subscribe_known_ids channel handler w :
  known_ids_registered (bus w) ->
  known_ids_registered (bus (Subscribe channel handler w).2).
Proof.
  intros Hinv. rewrite Subscribe_eq. cbv zeta.
  destruct (decide _); cbn [snd bus]; [exact Hinv|].
  intros i Hi. cbn [ids subscribers] in *.
  apply elem_of_union in Hi as [Hi|Hi].
  - apply elem_of_singleton in Hi as ->.
    eexists channel, _, {| id := subscriber_id channel handler; ch := fresh w;
                           cancel := S (fresh w) |}.
    rewrite lookup_insert_eq.
    split; [reflexivity|]. split; [|reflexivity].
    apply elem_of_app. right. apply list_elem_of_singleton. reflexivity.
  - destruct (Hinv i Hi) as (c & l & s & Hl & Hs & Hid).
    destruct (decide (channel = c)) as [->|Hne].
    + eexists c, _, s. rewrite lookup_insert_eq. split; [reflexivity|].
      rewrite Hl. cbn [default]. split; [|exact Hid].
      apply elem_of_app. left. exact Hs.
    + exists c, l, s. rewrite lookup_insert_ne by exact Hne. repeat split; assumption.
Qed.

Lemma Unsubscribe_known_ids channel handler w :
  known_ids_registered (bus w) ->
  known_ids_registered (bus (Unsubscribe channel handler w).2).
Proof.
  intros Hinv.
  destruct (subscribers (bus w) !! channel) as [sub|] eqn:Hsub;
    [|unfold Unsubscribe, bind, get_bus, ret; cbv beta iota; rewrite Hsub;
      exact Hinv].
  destruct (range_find 0 (subscriber_id channel handler) sub)
    as [[n sbcr]|] eqn:Hfind;
    [|unfold Unsubscribe, bind, get_bus, ret; cbv beta iota; rewrite Hsub;
      cbv zeta; rewrite Hfind; exact Hinv].
  rewrite (Unsubscribe_found Payload ReplyHandler channel handler w sub n sbcr
             Hsub Hfind).
  apply range_find_split in Hfind as (pre & post & -> & -> & Hpre & Hid).
  cbn [Nat.add]. rewrite delete_at_middle.
  intros i Hi. cbn [snd fst bus ids subscribers] in *.
  apply elem_of_difference in Hi as [Hi Hne]. rewrite elem_of_singleton in Hne.
  destruct (Hinv i Hi) as (c & l & s & Hl & Hs & His).
  destruct (decide (channel = c)) as [->|Hc].
  - rewrite Hsub in Hl. injection Hl as <-.
    assert (Hin : s ∈ pre ++ post).
    { apply elem_of_app in Hs as [Hs|Hs]; apply elem_of_app; [left; exact Hs|].
      apply elem_of_cons in Hs as [->|Hs]; [congruence | right; exact Hs]. }
    destruct (pre ++ post) as [|a l] eqn:Hl; [inversion Hin|].
    cbn [length Nat.eqb]. eexists c, _, s. rewrite lookup_insert_eq.
    split; [reflexivity|]. split; [|exact His].
    rewrite app_assoc, Hl. apply elem_of_app. left. exact Hin.
  - exists c, l, s. split; [|split; assumption].
    destruct (_ =? 0); rewrite ?lookup_delete_ne, lookup_insert_ne by exact Hc;
      exact Hl.
Qed.

Lemma Publish_bus channel (data : Payload) (handler : option ReplyHandler) w :
  bus (Publish channel data handler w).2 = bus w.
Proof.
  destruct (subscribers (bus w) !! channel) as [sub|] eqn:Hsub.
  - rewrite (Publish_found Payload ReplyHandler channel data handler sub w Hsub).
    reflexivity.
  - unfold Publish, bind, get_bus, perform, ret. cbv beta iota. rewrite Hsub.
    destruct handler; reflexivity.
Qed.

Lemma after_keeps (c : call Payload ReplyHandler) w :
  no_empty_list (bus w) /\ known_ids_registered (bus w) ->
  no_empty_list (bus (after c w)) /\ known_ids_registered (bus (after c w)).
Proof.
  intros [H1 H2]. destruct c as [channel data handler|channel handler|channel handler];
    cbn [after].
  - rewrite Publish_bus. split; assumption.
  - split; [apply Subscribe_no_empty_list | apply Subscribe_known_ids]; assumption.
  - split; [apply Unsubscribe_no_empty_list | apply Unsubscribe_known_ids]; assumption.
Qed.

(** X6. After any sequence of [Publish], [Subscribe] and [Unsubscribe]
    calls on a new bus, whatever they answered, the table holds no empty
    list (a channel is either absent or has at least one registration) and
    every known id is the id of a registration that the table still
    holds. *)
Theorem history_keeps_table_and_ids (cs : list (call Payload ReplyHandler)) :
  no_empty_list (bus (history cs))
  /\ known_ids_registered (bus (history cs)).
Proof.
  unfold history.
  assert (H0 : no_empty_list (bus (empty_world (Payload := Payload)
                                     (ReplyHandler := ReplyHandler)))
               /\ known_ids_registered
                    (bus (empty_world (Payload := Payload)
                            (ReplyHandler := ReplyHandler)))).
  { split; [apply empty_world_no_empty_list|].
    intros i Hi. cbn in Hi. apply not_elem_of_empty in Hi. contradiction. }
  revert H0. generalize (empty_world (Payload := Payload) (ReplyHandler := ReplyHandler)).
  induction cs as [|c cs IH]; intros w Hw; [exact Hw|].
  cbn [fold_left]. apply IH, after_keeps, Hw.
Qed.

End EventMore.

(** *** On concrete inputs *)

Import Examples.

Lemma Unsubscribe_answers_witness :
  subscribers (bus w_ab) !! "d"%string = None
  /\ (Unsubscribe "d" onA w_ab).1 = Some ErrChannelNotFound
  /\ (Unsubscribe "d" onA w_ab).2 = w_ab
  /\ (Unsubscribe "c" onA w_ab).1 = None.
Proof.
  assert (H : subscribers (bus w_ab) !! "d"%string = None)
    by (vm_compute; reflexivity).
  destruct (Unsubscribe_answers string nat "d" onA w_ab) as (H1 & _ & _ & H4).
  destruct (Unsubscribe_answers string nat "c" onA w_ab) as (_ & _ & H3 & _).
  cbv zeta in *.
  split; [exact H|]. split; [exact (proj2 H1 H)|].
  split; [apply H4; rewrite (proj2 H1 H); discriminate|].
  apply H3. exists [subA; subB]. split; [exact w_ab_table|].
  constructor. reflexivity.
Defined.

Lemma Unsubscribe_success_witness :
  subscribers (bus w_ab) !! "c"%string = Some ([] ++ subA :: [subB])
  /\ Forall (fun s => id s <> subscriber_id "c" onA) []
  /\ id subA = subscriber_id "c" onA
  /\ subscribers (bus (Unsubscribe "c" onA w_ab).2) !! "c"%string
     = Some [subB; subB]
  /\ trace (Unsubscribe "c" onA w_ab).2 = trace w_ab ++ [Cancel 1].
Proof.
  assert (H2 : Forall (fun s => id s <> subscriber_id "c" onA) []) by constructor.
  assert (H3 : id subA = subscriber_id "c" onA) by reflexivity.
  split; [exact w_ab_table|]. split; [exact H2|]. split; [exact H3|].
  destruct (Unsubscribe_success string nat "c" onA w_ab [] subA [subB]
              w_ab_table H2 H3) as (_ & Ht & _ & _ & Hs).
  split; [exact Hs | exact Ht].
Defined.

Lemma Subscribe_then_Unsubscribe_witness :
  subscribers (bus w0) !! "c"%string = None
  /\ (subscriber_id "c" onA ∉ ids (bus w0))
  /\ bus (Unsubscribe "c" onA (Subscribe "c" onA w0).2).2 = bus w0.
Proof.
  assert (H1 : subscribers (bus w0) !! "c"%string = None) by apply lookup_empty.
  assert (H2 : subscriber_id "c" onA ∉ ids (bus w0)) by apply not_elem_of_empty.
  split; [exact H1|]. split; [exact H2|].
  exact (proj1 (proj2 (proj2 (Subscribe_then_Unsubscribe string nat "c" onA w0 H1 H2)))).
Defined.

Lemma Unsubscribe_then_Subscribe_witness :
  subscribers (bus w_ab) !! "c"%string = Some ([subA] ++ subB :: [])
  /\ Forall (fun s => id s <> subscriber_id "c" onB) [subA]
  /\ id subB = subscriber_id "c" onB
  /\ subscribers (bus (Subscribe "c" onB (Unsubscribe "c" onB w_ab).2).2) !! "c"%string
     = Some [subA; subB; {| id := "c:main.onB"; ch := 4; cancel := 5 |}].
Proof.
  assert (H2 : Forall (fun s => id s <> subscriber_id "c" onB) [subA])
    by (repeat constructor; discriminate).
  assert (H3 : id subB = subscriber_id "c" onB) by reflexivity.
  split; [exact w_ab_table|]. split; [exact H2|]. split; [exact H3|].
  exact (proj2 (proj2 (Unsubscribe_then_Subscribe string nat "c" onB w_ab
                         [subA] subB [] w_ab_table H2 H3))).
Defined.

Lemma Publish_leaves_bus_witness :
  bus (Publish "c" "x"%string (None : option nat) w_ab).2 = bus w_ab
  /\ exists new,
       trace (Publish "c" "x"%string (None : option nat) w_ab).2 = trace w_ab ++ new
       /\ consume_calls new = [].
Proof.
  destruct (Publish_leaves_bus string nat "c" "x"%string None w_ab)
    as (Hb & new & Ht & _ & _ & Hc).
  split; [exact Hb|]. exists new. split; [exact Ht | exact (Hc eq_refl)].
Defined.

Lemma other_channels_untouched_witness :
  ("d" <> "c" :> string)
  /\ ("c:main.onB" <> subscriber_id "c" onA :> string)
  /\ subscribers (bus (Unsubscribe "c" onA w_ab).2) !! "d"%string
     = subscribers (bus w_ab) !! "d"%string
  /\ ("c:main.onB"%string ∈ ids (bus (Unsubscribe "c" onA w_ab).2)
      <-> "c:main.onB"%string ∈ ids (bus w_ab)).
Proof.
  assert (H1 : "d" <> "c" :> string) by discriminate.
  assert (H2 : "c:main.onB" <> subscriber_id "c" onA :> string) by discriminate.
  split; [exact H1|]. split; [exact H2|].
  destruct (other_channels_untouched string nat "c" onA w_ab "d" "c:main.onB" H1 H2)
    as (_ & Hu & _ & Hi).
  split; [exact Hu | exact Hi].
Defined.

End EventMore.

(** ** The kernel: [Configure], the logs and the states *)

Module KernelMore.
Import Kernel KernelFacts.

Section KernelMore.
Variables Env Properties Notification : Type.
Variable IsLoaded : Properties -> bool.
Variable NewNotificationQueue : Env -> Env.
Variable Notifications : Env -> list Notification * Env.
Variable handle : Notification -> Env -> Env.

Implicit Types core : Core Env Properties.
Implicit Types w : World Env Properties Notification.
Implicit Types s : Service Env Properties.
Implicit Types l svcs pre post : list (Service Env Properties).
Implicit Types props : Properties.

Local Abbreviation Configure := (Configure IsLoaded NewNotificationQueue).
Local Abbreviation Run := (Run Notifications handle).
Local Abbreviation exec := (exec IsLoaded NewNotificationQueue Notifications handle).
Local Abbreviation step := (step IsLoaded NewNotificationQueue Notifications handle).

(** *** One turn of the loop of [Configure] *)

Lemma configure_loop_cons_ok props s l core w x x' :
  Start s (env w) = (None, x) ->
  Configure_ s props x = (None, x') ->
  configure_loop props (s :: l) core w
  = configure_loop props l
      {| services := services core; internal := None; state := state core |}
      {| env := x';
         log := (log w ++ [Called s HStart None]) ++ [Called s HConfigure None] |}.
Proof.
  intros H1 H2. cbn [configure_loop]. unfold call. rewrite H1. cbn.
  rewrite H2. reflexivity.
Qed.

Lemma configure_loop_cons_start_fails props s l core w x e :
  Start s (env w) = (Some e, x) ->
  configure_loop props (s :: l) core w
  = (Some (Some e),
     {| services := services core; internal := Some e; state := state core |},
     {| env := x; log := log w ++ [Called s HStart (Some e)] |}).
Proof. intros H. cbn [configure_loop]. unfold call. rewrite H. reflexivity. Qed.

Lemma configure_loop_cons_configure_fails props s l core w x x' e :
  Start s (env w) = (None, x) ->
  Configure_ s props x = (Some e, x') ->
  configure_loop props (s :: l) core w
  = (Some (Some e),
     {| services := services core; internal := Some e; state := state core |},
     {| env := x';
        log := (log w ++ [Called s HStart None]) ++ [Called s HConfigure (Some e)] |}).
Proof.
  intros H1 H2. cbn [configure_loop]. unfold call. rewrite H1. cbn.
  rewrite H2. reflexivity.
Qed.

(** Over services that start and configure, the loop goes to its end. *)
Lemma configure_loop_all_ok props l :
  Forall (fun s => forall x, (Start s x).1 = None
                             /\ (Configure_ s props x).1 = None) l ->
  forall core w, exists x,
    configure_loop props l core w
    = (None,
       {| services := services core;
          internal := match l with [] => internal core | _ :: _ => None end;
          state := state core |},
       {| env := x;
          log := log w ++ flat_map (fun s => [Called s HStart None;
                                              Called s HConfigure None]) l |}).
Proof.
  induction l as [|s l IH]; intros Hok core w.
  - exists (env w). cbn. rewrite app_nil_r. destruct core, w; reflexivity.
  - apply Forall_cons in Hok as [Hs Hl].
    destruct (Start s (env w)) as [r1 x1] eqn:H1.
    assert (r1 = None) by (pose proof (proj1 (Hs (env w))) as H; rewrite H1 in H; exact H).
    subst r1.
    destruct (Configure_ s props x1) as [r2 x2] eqn:H2.
    assert (r2 = None) by (pose proof (proj2 (Hs x1)) as H; rewrite H2 in H; exact H).
    subst r2.
    rewrite (configure_loop_cons_ok props s l core w x1 x2 H1 H2).
    destruct (IH Hl {| services := services core; internal := None;
                       state := state core |}
                {| env := x2;
                   log := (log w ++ [Called s HStart None])
                          ++ [Called s HConfigure None] |}) as (x & Hrun).
    exists x. rewrite Hrun. cbn [log flat_map services internal state].
    rewrite <- !app_assoc. destruct l; reflexivity.
Qed.

(** Whatever the hooks do: the loop leaves the service list and the state
    alone; it returns what [core.internal] holds when a hook failed; when
    none did, [core.internal] holds nil, or what it held if there was no
    service at all. *)
Lemma configure_loop_outcome props l : forall core w,
  services (configure_loop (Notification := Notification) props l core w).1.2
  = services core
  /\ state (configure_loop (Notification := Notification) props l core w).1.2
     = state core
  /\ (((configure_loop (Notification := Notification) props l core w).1.1 = None
       /\ internal (configure_loop (Notification := Notification) props l core w).1.2
          = match l with [] => internal core | _ :: _ => None end)
      \/ exists e,
           (configure_loop (Notification := Notification) props l core w).1.1
           = Some (Some e)
           /\ internal (configure_loop (Notification := Notification) props l core w).1.2
              = Some e).
Proof.
  induction l as [|s l IH]; intros core w.
  - cbn. repeat split. left. split; reflexivity.
  - destruct (Start s (env w)) as [[e|] x] eqn:H1.
    + rewrite (configure_loop_cons_start_fails props s l core w x e H1). cbn.
      repeat split. right. exists e. split; reflexivity.
    + destruct (Configure_ s props x) as [[e|] x'] eqn:H2.
      * rewrite (configure_loop_cons_configure_fails props s l core w x x' e H1 H2).
        cbn. repeat split. right. exists e. split; reflexivity.
      * rewrite (configure_loop_cons_ok props s l core w x x' H1 H2).
        destruct (IH {| services := services core; internal := None;
                        state := state core |}
                    {| env := x';
                       log := (log w ++ [Called s HStart None])
                              ++ [Called s HConfigure None] |})
          as (Hsv & Hst & Hcase).
        split; [exact Hsv|]. split; [exact Hst|].
        destruct Hcase as [[Hr Hi]|Herr]; [left | right; exact Herr].
        split; [exact Hr|]. rewrite Hi. destruct l; reflexivity.
Qed.

Lemma configure_loop_prefix props pre rest :
  Forall (fun s => forall x, (Start s x).1 = None
                             /\ (Configure_ s props x).1 = None) pre ->
  forall core w, exists x,
    configure_loop props (pre ++ rest) core w
    = configure_loop props rest
        {| services := services core;
           internal := match pre with [] => internal core | _ :: _ => None end;
           state := state core |}
        {| env := x;
           log := log w ++ flat_map (fun s => [Called s HStart None;
                                               Called s HConfigure None]) pre |}.
Proof.
  induction pre as [|s pre IH]; intros Hok core w.
  - exists (env w). cbn. rewrite app_nil_r. destruct core, w; reflexivity.
  - apply Forall_cons in Hok as [Hs Hl].
    destruct (Start s (env w)) as [r1 x1] eqn:H1.
    assert (r1 = None) by (pose proof (proj1 (Hs (env w))) as H; rewrite H1 in H; exact H).
    subst r1.
    destruct (Configure_ s props x1) as [r2 x2] eqn:H2.
    assert (r2 = None) by (pose proof (proj2 (Hs x1)) as H; rewrite H2 in H; exact H).
    subst r2. cbn [app].
    rewrite (configure_loop_cons_ok props s _ core w x1 x2 H1 H2).
    destruct (IH Hl {| services := services core; internal := None;
                       state := state core |}
                {| env := x2;
                   log := (log w ++ [Called s HStart None])
                          ++ [Called s HConfigure None] |}) as (x & Hrun).
    exists x. rewrite Hrun. cbn [log flat_map services internal state].
    rewrite <- !app_assoc. destruct pre; reflexivity.
Qed.

(** *** Configure *)

(** X7. The outcome of [Configure], whatever the hooks do.  With
    properties that are not loaded it returns "properties not loaded" and
    nothing has happened: the kernel and the collaborators are as they
    were, no hook was called, nothing was logged.  With loaded properties
    the given service list is stored in any case; then either nil is
    returned, the state is [Idle] and no error is recorded, or an error is
    returned, that error is the one recorded in [core.internal], and the
    state is the one before the call. *)
Theorem Configure_outcome svcs props core w :
  (IsLoaded props = false ->
   Configure svcs props core w = (Some "properties not loaded"%string, core, w))
  /\ (IsLoaded props = true ->
      services (Configure svcs props core w).1.2 = svcs
      /\ (((Configure svcs props core w).1.1 = None
           /\ state (Configure svcs props core w).1.2 = Idle States
           /\ internal (Configure svcs props core w).1.2 = None)
          \/ exists e,
               (Configure svcs props core w).1.1 = Some e
               /\ internal (Configure svcs props core w).1.2 = Some e
               /\ state (Configure svcs props core w).1.2 = state core)).
Proof.
  split; intros Hl; unfold Kernel.Configure; rewrite Hl; cbn [negb]; [reflexivity|].
  match goal with |- context [configure_loop ?p ?l ?c ?w'] =>
    pose proof (configure_loop_outcome p l c w') as (Hsv & Hst & Hcase);
    destruct (configure_loop p l c w') as [[r c'] w''] end.
  cbn [fst snd services state internal] in *.
  destruct Hcase as [[-> Hi]|(e & -> & Hi)]; cbn.
  - split; [exact Hsv|]. left. repeat split. rewrite Hi. destruct svcs; reflexivity.
  - split; [exact Hsv|]. right. exists e. repeat split; assumption.
Qed.

(** X8. When the properties are loaded and every service starts and
    configures, [Configure] calls, for each service in the order of the
    list, [Start] and then [Configure], before it goes to the next
    service.  The log is: "start services", the two calls of every
    service, "services successfully started" with the number of services.
    It returns nil with the state [Idle], the list stored and no error
    recorded, whatever [core.internal] held before. *)
Theorem Configure_starts_then_configures svcs props core w :
  IsLoaded props = true ->
  Forall (fun s => forall x, (Start s x).1 = None
                             /\ (Configure_ s props x).1 = None) svcs ->
  exists x,
    Configure svcs props core w
    = (None,
       {| services := svcs; internal := None; state := Idle States |},
       {| env := x;
          log := log w ++ [Info InfoStartServices []]
                 ++ flat_map (fun s => [Called s HStart None;
                                        Called s HConfigure None]) svcs
                 ++ [Info InfoServicesStarted [length svcs]] |}).
Proof.
  intros Hl Hok. unfold Kernel.Configure. rewrite Hl. cbn [negb].
  match goal with |- context [configure_loop ?p ?l ?c ?w'] =>
    destruct (configure_loop_all_ok p l Hok c w') as (x & Hrun); rewrite Hrun end.
  exists x. unfold record, set_state. cbn. rewrite <- !app_assoc.
  destruct svcs; reflexivity.
Qed.

(** X9. When the properties are loaded, the services before [s] start
    and configure, and [s] fails, [Configure] returns the error of [s] and
    calls no hook of a later service.  If it is [Start] that fails, the
    [Configure] hook of [s] is not called either.  The list is stored, the
    error is recorded, the state is the one before the call, and "services
    successfully started" is not logged. *)
Theorem Configure_stops_at_first_failure svcs props core w pre s post e :
  IsLoaded props = true ->
  svcs = pre ++ s :: post ->
  Forall (fun s' => forall x, (Start s' x).1 = None
                              /\ (Configure_ s' props x).1 = None) pre ->
  ((forall x, (Start s x).1 = Some e) ->
   exists x,
     Configure svcs props core w
     = (Some e,
        {| services := svcs; internal := Some e; state := state core |},
        {| env := x;
           log := log w ++ [Info InfoStartServices []]
                  ++ flat_map (fun s' => [Called s' HStart None;
                                          Called s' HConfigure None]) pre
                  ++ [Called s HStart (Some e)] |}))
  /\ ((forall x, (Start s x).1 = None) ->
      (forall x, (Configure_ s props x).1 = Some e) ->
      exists x,
        Configure svcs props core w
        = (Some e,
           {| services := svcs; internal := Some e; state := state core |},
           {| env := x;
              log := log w ++ [Info InfoStartServices []]
                     ++ flat_map (fun s' => [Called s' HStart None;
                                             Called s' HConfigure None]) pre
                     ++ [Called s HStart None; Called s HConfigure (Some e)] |})).
Proof.
  intros Hl -> Hok. split.
  - intros Hfail. unfold Kernel.Configure. rewrite Hl. cbn [negb].
    match goal with |- context [configure_loop ?p _ ?c ?w'] =>
      destruct (configure_loop_prefix p pre (s :: post) Hok c w') as (x & Hrun);
      rewrite Hrun end.
    destruct (Start s x) as [r x1] eqn:H1.
    assert (r = Some e) by (pose proof (Hfail x) as H; rewrite H1 in H; exact H).
    subst r.
    match goal with |- context [configure_loop ?p _ ?c ?w'] =>
      rewrite (configure_loop_cons_start_fails p s post c w' x1 e H1) end.
    exists x1. unfold record. cbn. rewrite <- !app_assoc. reflexivity.
  - intros Hstart Hfail. unfold Kernel.Configure. rewrite Hl. cbn [negb].
    match goal with |- context [configure_loop ?p _ ?c ?w'] =>
      destruct (configure_loop_prefix p pre (s :: post) Hok c w') as (x & Hrun);
      rewrite Hrun end.
    destruct (Start s x) as [r1 x1] eqn:H1.
    assert (r1 = None) by (pose proof (Hstart x) as H; rewrite H1 in H; exact H).
    subst r1.
    destruct (Configure_ s props x1) as [r2 x2] eqn:H2.
    assert (r2 = Some e) by (pose proof (Hfail x1) as H; rewrite H2 in H; exact H).
    subst r2.
    match goal with |- context [configure_loop ?p _ ?c ?w'] =>
      rewrite (configure_loop_cons_configure_fails p s post c w' x1 x2 e H1 H2) end.
    exists x2. unfold record. cbn. rewrite <- !app_assoc. reflexivity.
Qed.

(** *** Run and Stop, whatever the hooks do *)

(** X10. What [Run] returns, what state it leaves and whom it called
    always agree, also for hooks that answer differently from call to
    call.  Either it returns nil, the state is [Idle], and [Process] was
    called once on every service, in order, each call returning nil; or it
    returns an error [e], the state is [Working], [e] is recorded and is
    what the last [Process] call returned, the calls before it returned nil
    and no service after it was called. *)
Theorem Run_result_state_and_calls core w : exists x new,
  (Run core w).2 = {| env := x; log := log w ++ new |}
  /\ (((Run core w).1
       = (None, {| services := services core;
                   internal := match services core with
                               | [] => internal core
                               | _ :: _ => None
                               end;
                   state := Idle States |})
       /\ calls_of HProcess new = map (fun s => (s, None)) (services core))
      \/ exists pre s post e,
           services core = pre ++ s :: post
           /\ (Run core w).1
              = (Some e, {| services := services core; internal := Some e;
                            state := Working States |})
           /\ calls_of HProcess new
              = map (fun s' => (s', None)) pre ++ [(s, Some e)]).
Proof.
  destruct (run_loop_log Env Properties Notification Notifications handle
              (services core) (set_state (Working States) core) w)
    as (x & new & Hw & Hcases).
  exists x, new. unfold Kernel.Run. cbn [services set_state].
  destruct (run_loop Notifications handle (services core)
              (set_state (Working States) core) w) as [[r c] w'].
  cbn [fst snd services internal state set_state] in *. subst w'.
  destruct Hcases as [[Hr Hcalls]|(pre & s & post & e & Hl & Hr & Hcalls)].
  - injection Hr as -> ->. split; [reflexivity|]. left. split; [reflexivity|exact Hcalls].
  - injection Hr as -> ->. split; [reflexivity|]. right.
    exists pre, s, post, e. repeat split; assumption.
Qed.

(** X11. The same for [Stop].  Its hook was called on an initial part
    [pre] of the list, once per service and in order, and each of these
    calls returned an error.  Either that part is the whole list: then the
    state is [Stopped] and nil is returned.  Or the next service returned
    nil: then no later service was called, the state is the one before the
    call and what is returned is the error of that service, nil. *)
Theorem Stop_result_state_and_calls core w : exists x new pre rest errs,
  services core = pre ++ rest
  /\ length errs = length pre
  /\ (Stop core w).2 = {| env := x; log := log w ++ new |}
  /\ match rest with
     | [] =>
         (Stop (Notification := Notification) core w).1
         = (None, {| services := services core;
                     internal := default (internal core) (last (Some <$> errs));
                     state := Stopped States |})
         /\ calls_of HStop new = zip pre (Some <$> errs)
     | s :: _ =>
         (Stop (Notification := Notification) core w).1
         = (None,
            {| services := services core; internal := None;
               state := state core |})
         /\ calls_of HStop new = zip pre (Some <$> errs) ++ [(s, None)]
     end.
Proof.
  destruct (stop_loop_log Env Properties Notification (services core) core w)
    as (x & new & pre & rest & errs & Hl & Hlen & Hw & Hrest).
  exists x, new, pre, rest, errs. unfold Stop.
  destruct (stop_loop (services core) core w) as [[r c] w'].
  cbn [fst snd] in *. subst w'.
  split; [exact Hl|]. split; [exact Hlen|].
  destruct rest as [|s rest']; destruct Hrest as [Hr Hcalls];
    injection Hr as -> ->; (split; [reflexivity|]); split;
    [reflexivity | exact Hcalls | reflexivity | exact Hcalls].
Qed.

(** *** The states the kernel takes *)

Lemma run_loop_state l : forall core w,
  state (run_loop Notifications handle l core w).1.2 = state core.
Proof.
  induction l as [|s l IH]; intros core w; [reflexivity|].
  cbn [run_loop]. unfold call.
  destruct (Process s (env w)) as [r x]. cbn [env log].
  destruct r as [e|]; cbn [checkIf negb]; [reflexivity|].
  destruct (Notifications x) as [ns x']. rewrite IH. reflexivity.
Qed.

Lemma step_state (o : op Env Properties) core w :
  state (step o core w).1.2 = state core
  \/ state (step o core w).1.2 = Idle States
  \/ state (step o core w).1.2 = Working States
  \/ state (step o core w).1.2 = Stopped States.
Proof.
  destruct o as [svcs props| |]; cbn [Kernel.step].
  - unfold Kernel.Configure. destruct (IsLoaded props); cbn [negb]; [|left; reflexivity].
    match goal with |- context [configure_loop ?p ?l ?c ?w'] =>
      pose proof (configure_loop_state Env Properties Notification p l c w') as Hst;
      destruct (configure_loop p l c w') as [[r c'] w''] end.
    cbn in Hst. destruct r as [r|]; cbn; [left; exact Hst | right; left; reflexivity].
  - unfold Kernel.Run. cbn [services set_state].
    pose proof (run_loop_state (services core) (set_state (Working States) core) w)
      as Hst.
    destruct (run_loop Notifications handle (services core)
                (set_state (Working States) core) w) as [[r c'] w''].
    cbn in Hst. destruct r as [r|]; cbn;
      [right; right; left; exact Hst | right; left; reflexivity].
  - unfold Stop.
    pose proof (stop_loop_state Env Properties Notification (services core) core w)
      as Hst.
    destruct (stop_loop (services core) core w) as [[r c'] w''].
    cbn in Hst. destruct r as [r|]; cbn;
      [left; exact Hst | right; right; right; reflexivity].
Qed.

Lemma exec_state ops : forall core w,
  (state core = 0%Z \/ state core = Idle States
   \/ state core = Working States \/ state core = Stopped States) ->
  state (exec ops core w).1.2 = 0%Z
  \/ state (exec ops core w).1.2 = Idle States
  \/ state (exec ops core w).1.2 = Working States
  \/ state (exec ops core w).1.2 = Stopped States.
Proof.
  induction ops as [|o ops IH]; intros core w H; [exact H|].
  cbn [Kernel.exec].
  pose proof (step_state o core w) as Hs.
  destruct (Kernel.step IsLoaded NewNotificationQueue Notifications handle o core w)
    as [[r c1] w1].
  specialize (IH c1 w1).
  destruct (Kernel.exec IsLoaded NewNotificationQueue Notifications handle ops c1 w1)
    as [[rs c2] w2].
  cbn [fst snd] in *. apply IH.
  destruct Hs as [-> | [-> | [-> | ->]]]; tauto.
Qed.

(** X12. Whatever [Configure], [Run] and [Stop] calls are made on
    [Core{}], with whatever services and whatever results, [State()] is the
    zero value, [Idle], [Working] or [Stopped]: the kernel never reports
    [Started] or [Panic]. *)
Theorem State_is_never_Started_or_Panic (ops : list (op Env Properties)) w :
  (State (exec ops zero w).1.2 = 0%Z
   \/ State (exec ops zero w).1.2 = Idle States
   \/ State (exec ops zero w).1.2 = Working States
   \/ State (exec ops zero w).1.2 = Stopped States)
  /\ State (exec ops zero w).1.2 <> Started States
  /\ State (exec ops zero w).1.2 <> Panic States.
Proof.
  unfold State.
  pose proof (exec_state ops zero w (or_introl eq_refl)) as H.
  split; [exact H|].
  destruct H as [-> | [-> | [-> | ->]]]; split; discriminate.
Qed.

End KernelMore.

(** *** On concrete inputs *)

Import KernelExamples MoreExamples.

Lemma Configure_outcome_witness :
  IsLoaded false = false
  /\ Kernel.Configure IsLoaded NewNotificationQueue [steady] false zero kw0
     = (Some "properties not loaded"%string, zero, kw0)
  /\ IsLoaded true = true
  /\ services (Kernel.Configure IsLoaded NewNotificationQueue [unstartable] true
                 zero kw0).1.2 = [unstartable].
Proof.
  split; [reflexivity|].
  split; [exact (proj1 (Configure_outcome nat bool nat IsLoaded NewNotificationQueue
                          [steady] false zero kw0) eq_refl)|].
  split; [reflexivity|].
  exact (proj1 (proj2 (Configure_outcome nat bool nat IsLoaded NewNotificationQueue
                         [unstartable] true zero kw0) eq_refl)).
Defined.

Lemma Configure_starts_then_configures_witness :
  IsLoaded true = true
  /\ Forall (fun s => forall x, (Start s x).1 = None
                                /\ (Configure_ s true x).1 = None) [steady; grumpy]
  /\ log (Kernel.Configure IsLoaded NewNotificationQueue [steady; grumpy] true
            zero kw0).2
     = [Info InfoStartServices [];
        Called steady HStart None; Called steady HConfigure None;
        Called grumpy HStart None; Called grumpy HConfigure None;
        Info InfoServicesStarted [2]].
Proof.
  assert (H : Forall (fun s : Service nat bool =>
                        forall x, (Start s x).1 = None
                                  /\ (Configure_ s true x).1 = None) [steady; grumpy])
    by (repeat constructor).
  split; [reflexivity|]. split; [exact H|].
  destruct (Configure_starts_then_configures nat bool nat IsLoaded
              NewNotificationQueue [steady; grumpy] true zero kw0 eq_refl H)
    as (x & Hc).
  rewrite Hc. reflexivity.
Defined.

Lemma Configure_stops_at_first_failure_witness :
  IsLoaded true = true
  /\ Forall (fun s => forall x, (Start s x).1 = None
                                /\ (Configure_ s true x).1 = None) [steady]
  /\ (forall x, (Start unstartable x).1 = Some "start failed"%string)
  /\ (Kernel.Configure IsLoaded NewNotificationQueue
        ([steady] ++ unstartable :: [grumpy]) true zero kw0).1.1
     = Some "start failed"%string
  /\ (forall x, (Start misconfigured x).1 = None)
  /\ (forall x, (Configure_ misconfigured true x).1 = Some "configure failed"%string)
  /\ (Kernel.Configure IsLoaded NewNotificationQueue
        ([steady] ++ misconfigured :: [grumpy]) true zero kw0).1.1
     = Some "configure failed"%string.
Proof.
  assert (H : Forall (fun s : Service nat bool =>
                        forall x, (Start s x).1 = None
                                  /\ (Configure_ s true x).1 = None) [steady])
    by (repeat constructor).
  assert (H1 : forall x, (Start unstartable x).1 = Some "start failed"%string)
    by (intros x; reflexivity).
  assert (H2 : forall x, (Start misconfigured x).1 = None) by (intros x; reflexivity).
  assert (H3 : forall x, (Configure_ misconfigured true x).1
                         = Some "configure failed"%string)
    by (intros x; reflexivity).
  split; [reflexivity|]. split; [exact H|]. split; [exact H1|].
  destruct (proj1 (Configure_stops_at_first_failure nat bool nat IsLoaded
                     NewNotificationQueue _ true zero kw0 [steady] unstartable
                     [grumpy] "start failed"%string eq_refl eq_refl H) H1)
    as (x1 & Hc1).
  destruct (proj2 (Configure_stops_at_first_failure nat bool nat IsLoaded
                     NewNotificationQueue _ true zero kw0 [steady] misconfigured
                     [grumpy] "configure failed"%string eq_refl eq_refl H) H2 H3)
    as (x2 & Hc2).
  rewrite Hc1, Hc2. repeat split; assumption.
Defined.

End KernelMore.

(** ** Notification routing: what [handle] emits and returns *)

Module NetworkMore.
Import Network.

Section NetworkMore.
Variables CommandObject DataObject ErrorObject Other Conn : Type.
Variables EntityNames_Services_Module EntityNames_Core : string.
Variable emit_result :
  string -> message CommandObject DataObject ErrorObject -> Conn -> bool * Conn.

Implicit Types n : Notification CommandObject DataObject ErrorObject Other.
Implicit Types w : World CommandObject DataObject ErrorObject Conn.

Local Abbreviation handle :=
  (handle EntityNames_Services_Module EntityNames_Core emit_result).

(** The same for [defaultNotificationHandler], from any trace. *)
Lemma defaultNotificationHandler_emits n w : exists new,
  trace (defaultNotificationHandler emit_result n w).2 = trace w ++ new
  /\ length (emits new) <= 1
  /\ (emits new = [] ->
      (defaultNotificationHandler emit_result n w).1 = None
      /\ conn (defaultNotificationHandler emit_result n w).2 = conn w)
  /\ (forall channel m,
        emits new = [(channel, m)] ->
        (defaultNotificationHandler emit_result n w).1
        = (if (emit_result channel m (conn w)).1 then None
           else Some "failed to emit message"%string)
        /\ conn (defaultNotificationHandler emit_result n w).2
           = (emit_result channel m (conn w)).2).
Proof.
  unfold defaultNotificationHandler, emit, logger.
  destruct (Content n) as [o|o|o|v]; cbn [conn trace].
  1-3: destruct (emit_result _ _ (conn w)) as [ok c] eqn:He;
    eexists; (split; [destruct ok; reflexivity|]);
    (split; [cbn; lia|]); (split; [discriminate|]);
    intros channel m Hm; cbn in Hm, He; injection Hm as <- <-; cbn;
    rewrite He; destruct ok; split; reflexivity.
  eexists. split; [reflexivity|]. split; [cbn; lia|].
  split; [intros _; split; reflexivity | discriminate].
Qed.

(** X13. For every notification, whatever its source and content,
    [handle] calls [emit] at most once.  When it does not call it, it
    returns nil and the connection is untouched.  When it calls it, it
    returns nil if [emit] reported success and the error "failed to emit
    message" if not, and the connection is what [emit] left. *)
Theorem handle_emits_at_most_once n w : exists new,
  trace (handle n w).2 = trace w ++ new
  /\ length (emits new) <= 1
  /\ (emits new = [] ->
      (handle n w).1 = None /\ conn (handle n w).2 = conn w)
  /\ (forall channel m,
        emits new = [(channel, m)] ->
        (handle n w).1
        = (if (emit_result channel m (conn w)).1 then None
           else Some "failed to emit message"%string)
        /\ conn (handle n w).2 = (emit_result channel m (conn w)).2).
Proof.
  unfold Network.handle.
  assert (Hd : exists new,
             trace (defaultNotificationHandler emit_result n
                      (logger _ _ _ _ Debug DebugNotificationHandled [] w)).2
             = trace w ++ new
             /\ length (emits new) <= 1
             /\ (emits new = [] ->
                 (defaultNotificationHandler emit_result n
                    (logger _ _ _ _ Debug DebugNotificationHandled [] w)).1 = None
                 /\ conn (defaultNotificationHandler emit_result n
                            (logger _ _ _ _ Debug DebugNotificationHandled [] w)).2 = conn w)
             /\ (forall channel m,
                   emits new = [(channel, m)] ->
                   (defaultNotificationHandler emit_result n
                      (logger _ _ _ _ Debug DebugNotificationHandled [] w)).1
                   = (if (emit_result channel m (conn w)).1 then None
                      else Some "failed to emit message"%string)
                   /\ conn (defaultNotificationHandler emit_result n
                              (logger _ _ _ _ Debug DebugNotificationHandled [] w)).2
                      = (emit_result channel m (conn w)).2)).
  { destruct (defaultNotificationHandler_emits n
                (logger _ _ _ _ Debug DebugNotificationHandled [] w))
      as (new & Ht & Hlen & Hnone & Hone).
    exists (Log Debug DebugNotificationHandled [] :: new).
    split; [rewrite Ht; unfold logger; cbn; rewrite <- app_assoc; reflexivity|].
    split; [exact Hlen|]. split; [exact Hnone | exact Hone]. }
  destruct (String.eqb (From n) EntityNames_Services_Module); [exact Hd|].
  destruct (String.eqb (From n) EntityNames_Core); [exact Hd|].
  unfold logger. cbn. eexists. split; [rewrite <- app_assoc; reflexivity|].
  split; [cbn; lia|]. split; [intros _; split; reflexivity | discriminate].
Qed.

End NetworkMore.

(** *** On concrete inputs *)

Import NetworkExamples MoreExamples.

Lemma handle_emits_at_most_once_witness :
  (Network.handle module_name core_name emit_fails data_from_core nw0).1
  = Some "failed to emit message"%string
  /\ (Network.handle module_name core_name emit_fails number_from_module nw0).1
     = None.
Proof.
  destruct (handle_emits_at_most_once string string string nat unit
              module_name core_name emit_fails data_from_core nw0)
    as (new1 & Ht1 & _ & _ & Hone).
  destruct (handle_emits_at_most_once string string string nat unit
              module_name core_name emit_fails number_from_module nw0)
    as (new2 & Ht2 & _ & Hnone & _).
  cbn [nw0 trace app] in Ht1, Ht2.
  split.
  - apply (Hone "Data"%string (MData "42"%string)). rewrite <- Ht1. reflexivity.
  - apply Hnone. rewrite <- Ht2. reflexivity.
Defined.

End NetworkMore.
